(** * The car selector widget and the query provider

    A shallow embedding of
    [frontend/src/components/InteractiveCarSelector.tsx] and
    [frontend/src/providers/QueryProvider.tsx].

    - JavaScript strings are [string]s (sequences of code units); the host's
      [String.prototype.toLowerCase] is a variable of the development and
      [String.prototype.includes] is written out.
    - JavaScript numbers are binary64 floats ([PrimFloat.float]); [<] and [>=]
      are the IEEE comparisons.
    - React state is a record; a handler is a function on the world (component
      state, requests in flight, console, router history); the rendered view
      decides which handlers a gesture can reach.
    - Arrays are lists; where a property is about what a computation may
      write, they are objects of a store addressed by reference. *)

From Stdlib Require Import String Ascii Floats ZArith Lia.
From stdpp Require Import base option list gmap strings.

Open Scope string_scope.

(** ** Data model (the interfaces at the head of the component) *)

Module CarBrand.
Record t := mk {
  id : string;
  name : string;
  name_ar : option string;
  logo_url : option string
}.
End CarBrand.

Module CarModel.
Record t := mk {
  id : string;
  name : string;
  name_ar : option string;
  brand_id : string;
  year_start : option float;
  year_end : option float
}.
End CarModel.

Module Product.
Record t := mk {
  id : string;
  name : string;
  name_ar : option string;
  price : float;
  image : option string;
  sku : option string
}.
End Product.

(** [type SelectorState = 'collapsed' | 'brands' | 'models' | 'products'] *)
Inductive SelectorState := Collapsed | Brands | Models | Products.

(** The type of [priceFilter]: ['all' | 'low' | 'medium' | 'high']. *)
Inductive PriceFilter := All | Low | Medium | High.

#[export] Instance SelectorState_eq_dec : EqDecision SelectorState.
Proof. solve_decision. Defined.

#[export] Instance PriceFilter_eq_dec : EqDecision PriceFilter.
Proof. solve_decision. Defined.

Definition GRID_COLUMNS : nat := 5.
Definition GRID_ROWS : nat := 2.

(** ** Strings *)

(** [s.includes(t)]: [t] occurs in [s] at some position. *)
Fixpoint includes (s t : string) : bool :=
  String.prefix t s ||
  match s with
  | EmptyString => false
  | String _ s' => includes s' t
  end.

(** The relation [includes] decides: [t] is a substring of [s]. *)
Definition Substring (t s : string) : Prop :=
  exists pre post : string, s = pre +:+ t +:+ post.

(** Lower-casing of one code unit of the Basic Latin block. *)
Definition lower_unit (c : ascii) : ascii :=
  let n := nat_of_ascii c in
  if (65 <=? n)%nat && (n <=? 90)%nat then ascii_of_nat (n + 32) else c.

(** Lower-casing of a string of Basic Latin code units. *)
Fixpoint basic_latin_lower (s : string) : string :=
  match s with
  | EmptyString => EmptyString
  | String c s' => String (lower_unit c) (basic_latin_lower s')
  end.

(** All code units of [s] are below 128. *)
Fixpoint is_basic_latin (s : string) : bool :=
  match s with
  | EmptyString => true
  | String c s' => (nat_of_ascii c <? 128)%nat && is_basic_latin s'
  end.

(** ** Arrays *)

(** [Array.prototype.filter]: visit the indices [k, k+1, ...] of [O] in order
    and append to the new array [A] each element the callback selects. *)
Fixpoint filter_loop {T : Type} (cb : T -> bool) (O : list T)
    (k fuel : nat) (A : list T) : list T :=
  match fuel with
  | 0%nat => A
  | S fuel' =>
      match O !! k with
      | Some kValue =>
          filter_loop cb O (S k) fuel' (if cb kValue then A ++ [kValue] else A)
      | None => filter_loop cb O (S k) fuel' A
      end
  end.

Definition Array_filter {T : Type} (cb : T -> bool) (O : list T) : list T :=
  filter_loop cb O 0 (length O) [].

(** [Array.prototype.slice(0, n)]. *)
Definition Array_slice0 {T : Type} (n : nat) (O : list T) : list T := take n O.

(** ** Component state and its environment *)

(** The cells declared with [useState]. *)
Record State := mkState {
  selectorState : SelectorState;
  selectedBrand : option CarBrand.t;
  selectedModel : option CarModel.t;
  products : list Product.t;
  loadingProducts : bool;
  searchQuery : string;
  priceFilter : PriceFilter
}.

(** The values on first mount. *)
Definition initialState : State :=
  {| selectorState := Collapsed; selectedBrand := None; selectedModel := None;
     products := []; loadingProducts := false; searchQuery := "";
     priceFilter := All |}.

(** What the hooks hand to a render: the store's lists and the language. *)
Record Env := mkEnv {
  carBrands : list CarBrand.t;
  carModels : list CarModel.t;
  language : string
}.

(** The argument of [productApi.getAll]. *)
Record Request := mkRequest {
  car_model_id : string;
  limit : nat
}.

(** The resolved value of [productApi.getAll]: [response.data?.products]. *)
Record ResponseData := mkResponseData {
  response_products : option (list Product.t)
}.

Record Response := mkResponse {
  data : option ResponseData
}.

(** How the awaited promise settles. *)
Inductive Settled :=
| Fulfilled (response : Response)
| Rejected (error : string).

(** Everything a handler can touch: the component's cells, the requests
    awaiting an answer, the console and the router's history. *)
Record World := mkWorld {
  comp : State;
  inflight : list Request;
  console : list (string * string);
  history : list string
}.

Definition initialWorld : World :=
  {| comp := initialState; inflight := []; console := []; history := [] |}.

(** A handler body: a sequence of writes. *)
Definition Act : Type := World -> World.

Definition skip : Act := fun w => w.

Definition seq (a b : Act) : Act := fun w => b (a w).

Declare Scope act_scope.
Delimit Scope act_scope with act.
Bind Scope act_scope with Act.
Notation "a ;; b" := (seq a b)
  (at level 100, b at level 200, right associativity) : act_scope.
Open Scope act_scope.

Definition modify (f : State -> State) : Act :=
  fun w => {| comp := f (comp w); inflight := inflight w;
              console := console w; history := history w |}.

Definition setSelectorState (v : SelectorState) : Act :=
  modify (fun st =>
    {| selectorState := v; selectedBrand := selectedBrand st;
       selectedModel := selectedModel st; products := products st;
       loadingProducts := loadingProducts st; searchQuery := searchQuery st;
       priceFilter := priceFilter st |}).

Definition setSelectedBrand (v : option CarBrand.t) : Act :=
  modify (fun st =>
    {| selectorState := selectorState st; selectedBrand := v;
       selectedModel := selectedModel st; products := products st;
       loadingProducts := loadingProducts st; searchQuery := searchQuery st;
       priceFilter := priceFilter st |}).

Definition setSelectedModel (v : option CarModel.t) : Act :=
  modify (fun st =>
    {| selectorState := selectorState st; selectedBrand := selectedBrand st;
       selectedModel := v; products := products st;
       loadingProducts := loadingProducts st; searchQuery := searchQuery st;
       priceFilter := priceFilter st |}).

Definition setProducts (v : list Product.t) : Act :=
  modify (fun st =>
    {| selectorState := selectorState st; selectedBrand := selectedBrand st;
       selectedModel := selectedModel st; products := v;
       loadingProducts := loadingProducts st; searchQuery := searchQuery st;
       priceFilter := priceFilter st |}).

Definition setLoadingProducts (v : bool) : Act :=
  modify (fun st =>
    {| selectorState := selectorState st; selectedBrand := selectedBrand st;
       selectedModel := selectedModel st; products := products st;
       loadingProducts := v; searchQuery := searchQuery st;
       priceFilter := priceFilter st |}).

Definition setSearchQuery (v : string) : Act :=
  modify (fun st =>
    {| selectorState := selectorState st; selectedBrand := selectedBrand st;
       selectedModel := selectedModel st; products := products st;
       loadingProducts := loadingProducts st; searchQuery := v;
       priceFilter := priceFilter st |}).

Definition setPriceFilter (v : PriceFilter) : Act :=
  modify (fun st =>
    {| selectorState := selectorState st; selectedBrand := selectedBrand st;
       selectedModel := selectedModel st; products := products st;
       loadingProducts := loadingProducts st; searchQuery := searchQuery st;
       priceFilter := v |}).

(** [router.push(path)] *)
Definition router_push (path : string) : Act :=
  fun w => {| comp := comp w; inflight := inflight w;
              console := console w; history := history w ++ [path] |}.

(** [console.error(label, error)] *)
Definition console_error (label error : string) : Act :=
  fun w => {| comp := comp w; inflight := inflight w;
              console := console w ++ [(label, error)]; history := history w |}.

(** The call [productApi.getAll(request)]: the request is now awaited. *)
Definition productApi_getAll (r : Request) : Act :=
  fun w => {| comp := comp w; inflight := inflight w ++ [r];
              console := console w; history := history w |}.

(** ** [fetchProductsForModel] *)

(** Up to the [await]. *)
Definition fetchProductsForModel (modelId : string) : Act :=
  setLoadingProducts true ;;
  productApi_getAll {| car_model_id := modelId; limit := 100 |}.

(** [response.data?.products || []] *)
Definition response_products_or_empty (response : Response) : list Product.t :=
  match data response with
  | Some d =>
      match response_products d with
      | Some ps => ps
      | None => []
      end
  | None => []
  end.

(** From the [await] on: the [try] continues, or [catch] runs; then
    [finally]. *)
Definition fetchProductsForModel_resume (o : Settled) : Act :=
  match o with
  | Fulfilled response => setProducts (response_products_or_empty response)
  | Rejected error =>
      console_error "Error fetching products:" error ;; setProducts []
  end ;;
  setLoadingProducts false.

(** ** Handlers

    A handler is a closure of the render that created it: it reads the cells
    of that render ([st]) and writes through the setters. *)

Definition handleAnchorPress (st : State) : Act :=
  if decide (selectorState st = Collapsed) then
    setSelectorState Brands
  else
    setSelectorState Collapsed ;;
    setSelectedBrand None ;;
    setSelectedModel None ;;
    setProducts [] ;;
    setSearchQuery "" ;;
    setPriceFilter All.

Definition handleBrandSelect (brand : CarBrand.t) : Act :=
  setSelectedBrand (Some brand) ;;
  setSelectorState Models.

Definition handleModelSelect (model : CarModel.t) : Act :=
  setSelectedModel (Some model) ;;
  setSelectorState Products ;;
  fetchProductsForModel (CarModel.id model).

Definition handleBackToModels : Act :=
  setSelectorState Models ;;
  setSelectedModel None ;;
  setProducts [].

Definition handleBackToBrands : Act :=
  setSelectorState Brands ;;
  setSelectedBrand None ;;
  setSelectedModel None.

Definition handleProductPress (productId : string) : Act :=
  router_push ("/product/" +:+ productId) ;;
  setSelectorState Collapsed ;;
  setSelectedBrand None ;;
  setSelectedModel None ;;
  setProducts [].

(** The [onPress] of the "View All" tile. *)
Definition handleViewAllPress (st : State) : Act :=
  (if decide (selectorState st = Brands) then router_push "/car-brands"
   else
     match selectedBrand st with
     | Some b => router_push ("/brand/" +:+ CarBrand.id b)
     | None => skip
     end) ;;
  setSelectorState Collapsed.

(** The [onPress] of the products panel's close button. *)
Definition handlePanelClosePress : Act :=
  setSelectorState Collapsed.

(** [getName]: the localized name when the language is Arabic and the name is
    present and not empty. *)
Definition getName (lang : string) (name : string) (name_ar : option string)
    : string :=
  if decide (lang = "ar") then
    match name_ar with
    | Some a => if decide (a = "") then name else a
    | None => name
    end
  else name.

(** ** The query provider *)

Module QueryProvider.

Inductive NetworkMode := online | always | offlineFirst.

(** [defaultOptions.queries] *)
Record QueryDefaults := mkQueryDefaults {
  staleTime : Z;
  gcTime : Z;
  retry : nat;
  refetchOnReconnect : bool;
  refetchOnWindowFocus : bool;
  networkMode : NetworkMode
}.

(** [defaultOptions.mutations] *)
Record MutationDefaults := mkMutationDefaults {
  mutation_retry : nat;
  mutation_networkMode : NetworkMode
}.

Record ClientConfig := mkClientConfig {
  queries : QueryDefaults;
  mutations : MutationDefaults
}.

(** [new QueryClient({ defaultOptions: ... })]; times in milliseconds. *)
Definition queryClient : ClientConfig :=
  {| queries :=
       {| staleTime := 1000 * 60 * 60 * 24;
          gcTime := 1000 * 60 * 60 * 24 * 7;
          retry := 3;
          refetchOnReconnect := true;
          refetchOnWindowFocus := false;
          networkMode := offlineFirst |};
     mutations :=
       {| mutation_retry := 2;
          mutation_networkMode := offlineFirst |} |}.

(** The options of [createAsyncStoragePersister] (the storage is the
    device's). *)
Record PersisterConfig := mkPersisterConfig {
  key : string;
  throttleTime : Z
}.

Definition asyncStoragePersister : PersisterConfig :=
  {| key := "alghazaly-query-cache"; throttleTime := 1000 |}.

(** The [persistOptions] of [PersistQueryClientProvider]. *)
Record PersistOptions := mkPersistOptions {
  persister : PersisterConfig;
  maxAge : Z;
  buster : string
}.

Definition persistOptions : PersistOptions :=
  {| persister := asyncStoragePersister;
     maxAge := 1000 * 60 * 60 * 24 * 7;
     buster := "v1" |}.

Definition ms_per_day : Z := 24 * 60 * 60 * 1000.

(** Modelled from the spec: the query library's fetch of a query (its code is
    not in the repository), "Retries failed fetches a fixed number of times
    before surfacing failure". [fetchFn k] is the outcome of the call number
    [k]; the result comes with the number of calls made. *)
Fixpoint fetch_attempt {A : Type} (fetchFn : nat -> option A)
    (k retriesLeft : nat) : option A * nat :=
  match fetchFn k with
  | Some v => (Some v, S k)
  | None =>
      match retriesLeft with
      | 0%nat => (None, S k)
      | S r => fetch_attempt fetchFn (S k) r
      end
  end.

Definition query_fetch {A : Type} (c : ClientConfig) (fetchFn : nat -> option A)
    : option A * nat :=
  fetch_attempt fetchFn 0 (retry (queries c)).

(** What the persister keeps under its key. *)
Record PersistedClient (A : Type) := mkPersistedClient {
  timestamp : Z;
  persisted_buster : string;
  clientState : A
}.

Arguments timestamp {A} _.
Arguments persisted_buster {A} _.
Arguments clientState {A} _.

(** Modelled from the spec: the persistence library's restore (its code is
    not in the repository), "entries expire after a fixed retention window"
    and "a cache-buster version tag that invalidates all entries on version
    change". [None]: the persisted entries are discarded. *)
Definition restore {A : Type} (o : PersistOptions) (now : Z)
    (pc : PersistedClient A) : option A :=
  if bool_decide (now - timestamp pc > maxAge o)%Z
     || negb (bool_decide (persisted_buster pc = buster o))
  then None
  else Some (clientState pc).

(** Modelled from the spec: what the persistence library keeps of the cache
    at the time [now] (its code is not in the repository), "key-value store
    addressed by a fixed cache key plus a version buster string". *)
Definition save {A : Type} (o : PersistOptions) (now : Z) (state : A)
    : PersistedClient A :=
  {| timestamp := now; persisted_buster := buster o; clientState := state |}.

(** A write that reaches the storage. *)
Record Flush (B : Type) := mkFlush {
  flush_time : Z;
  flush_key : string;
  flush_value : B
}.

Arguments mkFlush {B} _ _ _.
Arguments flush_time {B} _.
Arguments flush_key {B} _.
Arguments flush_value {B} _.

(** Modelled from the spec: the persister's throttle (its code is not in the
    repository), "all results are persisted to on-device storage" and
    "writes are throttled to no more than one flush per fixed interval".
    [writes] are the write requests, each with its time; [last] is the time
    of the latest flush and [pending] the value of a request that came
    within the interval after it and waits for the interval to end, where it
    is flushed; a later request within the same interval takes its place. *)
Fixpoint flushes {B : Type} (c : PersisterConfig) (last : option Z)
    (pending : option B) (writes : list (Z * B)) : list (Flush B) :=
  match writes with
  | [] =>
      match last, pending with
      | Some l, Some b => [mkFlush (l + throttleTime c)%Z (key c) b]
      | _, _ => []
      end
  | (t, b) :: rest =>
      match last with
      | None => mkFlush t (key c) b :: flushes c (Some t) None rest
      | Some l =>
          match pending with
          | None =>
              if bool_decide (l + throttleTime c <= t)%Z
              then mkFlush t (key c) b :: flushes c (Some t) None rest
              else flushes c (Some l) (Some b) rest
          | Some b0 =>
              if bool_decide (t <= l + throttleTime c)%Z
              then flushes c (Some l) (Some b) rest
              else
                mkFlush (l + throttleTime c)%Z (key c) b0 ::
                (if bool_decide (l + throttleTime c + throttleTime c <= t)%Z
                 then mkFlush t (key c) b :: flushes c (Some t) None rest
                 else flushes c (Some (l + throttleTime c)%Z) (Some b) rest)
          end
      end
  end.

(** The times [ts] come in order, none before [lo]. *)
Fixpoint ordered_from (lo : Z) (ts : list Z) : Prop :=
  match ts with
  | [] => True
  | t :: rest => (lo <= t)%Z /\ ordered_from t rest
  end.

(** Every flush comes at least [d] after the one before it. *)
Fixpoint spaced (d : Z) (last : option Z) (ts : list Z) : Prop :=
  match ts with
  | [] => True
  | t :: rest =>
      match last with
      | Some l => (l + d <= t)%Z
      | None => True
      end /\ spaced d (Some t) rest
  end.

End QueryProvider.

(** ** Sample data *)

Definition sampleBrand : CarBrand.t :=
  {| CarBrand.id := "B1"; CarBrand.name := "Toyota";
     CarBrand.name_ar := None; CarBrand.logo_url := None |}.

Definition sampleModel : CarModel.t :=
  {| CarModel.id := "M1"; CarModel.name := "Corolla";
     CarModel.name_ar := None; CarModel.brand_id := "B1";
     CarModel.year_start := None; CarModel.year_end := None |}.

Definition sampleProduct : Product.t :=
  {| Product.id := "P1"; Product.name := "abc-123";
     Product.name_ar := None; Product.price := 250%float;
     Product.image := None; Product.sku := None |}.

Definition sampleEnv : Env :=
  {| carBrands := [sampleBrand]; carModels := [sampleModel];
     language := "en" |}.

(** The widget showing one fetched product under an active search text and
    price bracket. *)
Definition sampleProductsState : State :=
  {| selectorState := Products; selectedBrand := Some sampleBrand;
     selectedModel := Some sampleModel; products := [sampleProduct];
     loadingProducts := false; searchQuery := "abc"; priceFilter := Medium |}.

(** The fetched product with the search text and the price bracket at their
    defaults. *)
Definition sampleUnfilteredState : State :=
  {| selectorState := Products; selectedBrand := Some sampleBrand;
     selectedModel := Some sampleModel; products := [sampleProduct];
     loadingProducts := false; searchQuery := ""; priceFilter := All |}.

(** A store with no brand. *)
Definition emptyEnv : Env :=
  {| carBrands := []; carModels := [sampleModel]; language := "en" |}.

(** Products priced at the two boundaries. *)
Definition productAt100 : Product.t :=
  {| Product.id := "P100"; Product.name := "filter";
     Product.name_ar := None; Product.price := 100%float;
     Product.image := None; Product.sku := None |}.

Definition productAt500 : Product.t :=
  {| Product.id := "P500"; Product.name := "pump";
     Product.name_ar := None; Product.price := 500%float;
     Product.image := None; Product.sku := None |}.

(** A store of array objects holding the fetched list at reference 0. *)
Definition sampleObjects : gmap nat (list Product.t) :=
  {[ 0%nat := [sampleProduct] ]}.

(** A second model of the sample brand, and a store with both models. *)
Definition sampleModel2 : CarModel.t :=
  {| CarModel.id := "M2"; CarModel.name := "Camry";
     CarModel.name_ar := None; CarModel.brand_id := "B1";
     CarModel.year_start := None; CarModel.year_end := None |}.

Definition sampleEnv2 : Env :=
  {| carBrands := [sampleBrand]; carModels := [sampleModel; sampleModel2];
     language := "en" |}.

(** The sample products state as the cells of a world at rest. *)
Definition sampleWorld : World :=
  {| comp := sampleProductsState; inflight := []; console := [];
     history := [] |}.

(** The requests for both sample models awaiting their answers, the second
    model being the selected one. *)
Definition twoRequestsWorld : World :=
  {| comp :=
       {| selectorState := Products; selectedBrand := Some sampleBrand;
          selectedModel := Some sampleModel2; products := [];
          loadingProducts := true; searchQuery := ""; priceFilter := All |};
     inflight := [ {| car_model_id := "M1"; limit := 100 |};
                   {| car_model_id := "M2"; limit := 100 |} ];
     console := []; history := [] |}.

(** A second brand and a second product; a store with two brands and two
    models of the first. *)
Definition sampleBrand2 : CarBrand.t :=
  {| CarBrand.id := "B2"; CarBrand.name := "Honda";
     CarBrand.name_ar := None; CarBrand.logo_url := None |}.

Definition sampleProduct2 : Product.t :=
  {| Product.id := "P2"; Product.name := "oil filter";
     Product.name_ar := None; Product.price := 80%float;
     Product.image := None; Product.sku := None |}.

Definition sampleEnv3 : Env :=
  {| carBrands := [sampleBrand; sampleBrand2];
     carModels := [sampleModel; sampleModel2]; language := "en" |}.

(** The cells in the brands state, in the models state of the first brand,
    and in the products state with two fetched products. *)
Definition brandsState : State :=
  {| selectorState := Brands; selectedBrand := None; selectedModel := None;
     products := []; loadingProducts := false; searchQuery := "";
     priceFilter := All |}.

Definition modelsState : State :=
  {| selectorState := Models; selectedBrand := Some sampleBrand;
     selectedModel := None; products := []; loadingProducts := false;
     searchQuery := ""; priceFilter := All |}.

Definition twoProductsState : State :=
  {| selectorState := Products; selectedBrand := Some sampleBrand;
     selectedModel := Some sampleModel;
     products := [sampleProduct; sampleProduct2];
     loadingProducts := false; searchQuery := ""; priceFilter := All |}.

(** ** The render function *)

Section Widget.

(** The host's [String.prototype.toLowerCase]. *)
Variable toLowerCase : string -> string.

(** [field?.toLowerCase().includes(q.toLowerCase())] on an optional field:
    [undefined] when the field is absent, which [||] and [&&] read as false. *)
Definition field_includes (field : option string) (q : string) : bool :=
  match field with
  | Some s => includes (toLowerCase s) (toLowerCase q)
  | None => false
  end.

(** [matchesSearch] of the filter callback. *)
Definition matchesSearch (q : string) (p : Product.t) : bool :=
  bool_decide (q = "") ||
  includes (toLowerCase (Product.name p)) (toLowerCase q) ||
  field_includes (Product.name_ar p) q ||
  field_includes (Product.sku p) q.

(** [matchesPrice] of the filter callback; [a >= b] is [b <= a]. *)
Definition matchesPrice (f : PriceFilter) (p : Product.t) : bool :=
  match f with
  | All => true
  | Low => (Product.price p <? 100)%float
  | Medium => (100 <=? Product.price p)%float && (Product.price p <? 500)%float
  | High => (500 <=? Product.price p)%float
  end.

(** The callback of [products.filter]. *)
Definition filterCallback (st : State) (p : Product.t) : bool :=
  matchesSearch (searchQuery st) p && matchesPrice (priceFilter st) p.

Definition filteredProducts (st : State) : list Product.t :=
  Array_filter (filterCallback st) (products st).

Definition displayBrands (env : Env) : list CarBrand.t :=
  Array_slice0 (GRID_COLUMNS * GRID_ROWS) (carBrands env).

Definition filteredModels (env : Env) (st : State) : list CarModel.t :=
  match selectedBrand st with
  | Some b =>
      Array_slice0 (GRID_COLUMNS * GRID_ROWS)
        (Array_filter
           (fun m => bool_decide (CarModel.brand_id m = CarBrand.id b))
           (carModels env))
  | None => []
  end.

(** The rendered tree, reduced to what it shows and what its pressable
    elements call. *)
Record Crumb := mkCrumb {
  crumb_text : string;
  crumb_onPress : Act
}.

Record Tile := mkTile {
  tile_key : string;
  tile_image : option string;
  tile_text : string;
  tile_onPress : Act
}.

Record Grid := mkGrid {
  tiles : list Tile;
  viewAll_onPress : Act
}.

Record Chip := mkChip {
  chip_key : PriceFilter;
  chip_active : bool;
  chip_onPress : Act
}.

Record Card := mkCard {
  card_key : string;
  card_image : option string;
  card_name : string;
  card_price : float;
  card_onPress : Act
}.

(** The three alternatives below the filters row. *)
Inductive PanelBody :=
| LoadingContainer
| EmptyContainer
| ProductsGrid (cards : list Card).

Record Panel := mkPanel {
  back_onPress : Act;
  headerTitle : string;
  headerCount : nat;
  close_onPress : Act;
  search_value : string;
  search_onChangeText : string -> Act;
  chips : list Chip;
  body : PanelBody
}.

Record View := mkView {
  anchor_icon : string;
  anchor_onPress : Act;
  breadcrumb : option (list Crumb);
  hint : bool;
  grid : option Grid;
  panel : Panel
}.

(** A present, non-empty string (what [&&] and [? :] accept of [string?]). *)
Definition truthy (s : option string) : option string :=
  match s with
  | Some u => if decide (u = "") then None else Some u
  | None => None
  end.

Definition brandTile (env : Env) (b : CarBrand.t) : Tile :=
  {| tile_key := CarBrand.id b;
     tile_image := truthy (CarBrand.logo_url b);
     tile_text := getName (language env) (CarBrand.name b) (CarBrand.name_ar b);
     tile_onPress := handleBrandSelect b |}.

Definition modelTile (env : Env) (m : CarModel.t) : Tile :=
  {| tile_key := CarModel.id m;
     tile_image := None;
     tile_text := getName (language env) (CarModel.name m) (CarModel.name_ar m);
     tile_onPress := handleModelSelect m |}.

Definition productCard (env : Env) (p : Product.t) : Card :=
  {| card_key := Product.id p;
     card_image := truthy (Product.image p);
     card_name := getName (language env) (Product.name p) (Product.name_ar p);
     card_price := Product.price p;
     card_onPress := handleProductPress (Product.id p) |}.

Definition renderBreadcrumb (env : Env) (st : State) : list Crumb :=
  match selectedBrand st with
  | Some b =>
      [ {| crumb_text :=
             getName (language env) (CarBrand.name b) (CarBrand.name_ar b);
           crumb_onPress := handleBackToBrands |} ]
  | None => []
  end ++
  match selectedModel st with
  | Some m =>
      [ {| crumb_text :=
             getName (language env) (CarModel.name m) (CarModel.name_ar m);
           crumb_onPress := handleBackToModels |} ]
  | None => []
  end.

Definition renderGrid (env : Env) (st : State) : Grid :=
  {| tiles :=
       if decide (selectorState st = Brands)
       then brandTile env <$> displayBrands env
       else modelTile env <$> filteredModels env st;
     viewAll_onPress := handleViewAllPress st |}.

Definition renderChip (st : State) (f : PriceFilter) : Chip :=
  {| chip_key := f;
     chip_active := bool_decide (priceFilter st = f);
     chip_onPress := setPriceFilter f |}.

Definition renderPanel (env : Env) (st : State) : Panel :=
  {| back_onPress := handleBackToModels;
     headerTitle :=
       match selectedModel st with
       | Some m => getName (language env) (CarModel.name m) (CarModel.name_ar m)
       | None => ""
       end;
     headerCount := length (filteredProducts st);
     close_onPress := handlePanelClosePress;
     search_value := searchQuery st;
     search_onChangeText := setSearchQuery;
     chips := renderChip st <$> [All; Low; Medium; High];
     body :=
       if loadingProducts st then LoadingContainer
       else if decide (length (filteredProducts st) = 0%nat) then EmptyContainer
       else ProductsGrid (productCard env <$> filteredProducts st) |}.

(** The component function: [None] is the [return null]. *)
Definition render (env : Env) (st : State) : option View :=
  if decide (length (carBrands env) = 0%nat) then None
  else Some
    {| anchor_icon :=
         if decide (selectorState st = Collapsed) then "car-sports" else "close";
       anchor_onPress := handleAnchorPress st;
       breadcrumb :=
         if decide (selectorState st = Collapsed) then None
         else Some (renderBreadcrumb env st);
       hint := bool_decide (selectorState st = Collapsed);
       grid :=
         if decide (selectorState st = Brands \/ selectorState st = Models)
         then Some (renderGrid env st) else None;
       panel := renderPanel env st |}.

(** ** Gestures and the transition system *)

(** A gesture on one element of the rendered tree. *)
Inductive Event :=
| PressAnchor
| PressCrumb (i : nat)
| PressTile (i : nat)
| PressViewAll
| PressPanelBack
| PressPanelClose
| ChangeSearchText (text : string)
| PressChip (i : nat)
| PressCard (i : nat).

(** The handler the view attaches to the element the gesture hits, when the
    view has that element. *)
Definition onEvent (v : View) (e : Event) : option Act :=
  match e with
  | PressAnchor => Some (anchor_onPress v)
  | PressCrumb i => crumbs ← breadcrumb v; crumb_onPress <$> crumbs !! i
  | PressTile i => g ← grid v; tile_onPress <$> tiles g !! i
  | PressViewAll => viewAll_onPress <$> grid v
  | PressPanelBack => Some (back_onPress (panel v))
  | PressPanelClose => Some (close_onPress (panel v))
  | ChangeSearchText text => Some (search_onChangeText (panel v) text)
  | PressChip i => chip_onPress <$> chips (panel v) !! i
  | PressCard i =>
      match body (panel v) with
      | ProductsGrid cards => card_onPress <$> cards !! i
      | _ => None
      end
  end.

(** What can happen to the mounted component: a gesture, or the settling of
    the [i]-th request in flight. *)
Inductive Input :=
| User (e : Event)
| Settle (i : nat) (o : Settled).

Definition take_request (i : nat) : Act :=
  fun w => {| comp := comp w; inflight := delete i (inflight w);
              console := console w; history := history w |}.

(** One input, handled to completion and followed by a re-render. *)
Definition step (env : Env) (w : World) (input : Input) : option World :=
  match input with
  | User e =>
      v ← render env (comp w);
      a ← onEvent v e;
      Some (a w)
  | Settle i o =>
      _ ← inflight w !! i;
      Some ((take_request i ;; fetchProductsForModel_resume o) w)
  end.

(** The worlds the component can be in; the store may hand a different
    environment to every render. *)
Inductive reachable : World -> Prop :=
| reachable_init : reachable initialWorld
| reachable_step env w input w' :
    reachable w -> step env w input = Some w' -> reachable w'.

(** A run from a world, skipping inputs that hit nothing. *)
Fixpoint run (env : Env) (w : World) (inputs : list Input) : World :=
  match inputs with
  | [] => w
  | input :: rest =>
      match step env w input with
      | Some w' => run env w' rest
      | None => run env w rest
      end
  end.

(** ** Sample inputs *)

(** A response carrying the sample product, and one carrying no product. *)
Definition sampleResponse : Response :=
  {| data := Some {| response_products := Some [sampleProduct] |} |}.

Definition emptyResponse : Response :=
  {| data := Some {| response_products := Some [] |} |}.

(** Open the widget, choose the first brand, choose its first model, receive
    the sample product, type a search text, choose the 'medium' bracket. *)
Definition browseToProducts : list Input :=
  [ User PressAnchor; User (PressTile 0); User (PressTile 0);
    Settle 0 (Fulfilled sampleResponse);
    User (ChangeSearchText "ABC"); User (PressChip 2) ].

(** Choose the first model, go back, choose the second: two requests are
    in flight. *)
Definition switchModels : list Input :=
  [ User PressAnchor; User (PressTile 0); User (PressTile 0);
    User PressPanelBack; User (PressTile 1) ].

(** ** Arrays as objects

    A store of array objects by reference, for the properties about what a
    computation writes. *)

Definition push_obj {T : Type} (a : nat) (v : T) (h : gmap nat (list T))
    : gmap nat (list T) :=
  alter (fun l : list T => (l ++ [v])%list) a h.

(** The loop of [Array.prototype.filter] over the array object at [r],
    appending to the array object at [a]. *)
Fixpoint filter_loop_obj {T : Type} (cb : T -> bool) (r a : nat)
    (k fuel : nat) (h : gmap nat (list T)) : gmap nat (list T) :=
  match fuel with
  | 0%nat => h
  | S fuel' =>
      match h !! r ≫= (fun O => O !! k) with
      | Some kValue =>
          filter_loop_obj cb r a (S k) fuel'
            (if cb kValue then push_obj a kValue h else h)
      | None => filter_loop_obj cb r a (S k) fuel' h
      end
  end.

(** [O.filter(cb)] for the array object at [r]: reads its length, creates a
    new array object, runs the loop and returns the new reference with the
    store. [None] when [r] is not an array object. *)
Definition Array_filter_obj {T : Type} (cb : T -> bool) (r : nat)
    (h : gmap nat (list T)) : option (nat * gmap nat (list T)) :=
  O ← h !! r;
  let a := fresh (dom h) in
  Some (a, filter_loop_obj cb r a 0 (length O) (<[a := []]> h)).

(** The statement [const filteredProducts = products.filter(...)] of a render
    whose [products] cell holds the reference [r]. *)
Definition filteredProducts_obj (st : State) (r : nat)
    (h : gmap nat (list Product.t)) : option (nat * gmap nat (list Product.t)) :=
  Array_filter_obj (filterCallback st) r h.

(** ** Gestures, case by case *)

(** [fires env w e w']: the gesture [e] on the widget rendered from [w] hits
    an element, whose handler leaves the world [w']. One constructor per
    pressable element of the rendered tree. *)
Inductive fires (env : Env) (w : World) : Event -> World -> Prop :=
| fires_anchor :
    fires env w PressAnchor (handleAnchorPress (comp w) w)
| fires_crumb_brand i b :
    selectorState (comp w) <> Collapsed ->
    selectedBrand (comp w) = Some b -> i = 0%nat ->
    fires env w (PressCrumb i) (handleBackToBrands w)
| fires_crumb_model i m :
    selectorState (comp w) <> Collapsed ->
    selectedModel (comp w) = Some m ->
    i = match selectedBrand (comp w) with Some _ => 1%nat | None => 0%nat end ->
    fires env w (PressCrumb i) (handleBackToModels w)
| fires_tile_brand i b :
    selectorState (comp w) = Brands ->
    displayBrands env !! i = Some b ->
    fires env w (PressTile i) (handleBrandSelect b w)
| fires_tile_model i m :
    selectorState (comp w) = Models ->
    filteredModels env (comp w) !! i = Some m ->
    fires env w (PressTile i) (handleModelSelect m w)
| fires_view_all :
    selectorState (comp w) = Brands \/ selectorState (comp w) = Models ->
    fires env w PressViewAll (handleViewAllPress (comp w) w)
| fires_panel_back :
    fires env w PressPanelBack (handleBackToModels w)
| fires_panel_close :
    fires env w PressPanelClose (handlePanelClosePress w)
| fires_search text :
    fires env w (ChangeSearchText text) (setSearchQuery text w)
| fires_chip i f :
    [All; Low; Medium; High] !! i = Some f ->
    fires env w (PressChip i) (setPriceFilter f w)
| fires_card i p :
    loadingProducts (comp w) = false ->
    filteredProducts (comp w) !! i = Some p ->
    fires env w (PressCard i) (handleProductPress (Product.id p) w).

(** The routes the widget pushes. *)
Definition widget_route (r : string) : Prop :=
  r = "/car-brands" \/
  (exists productId, r = "/product/" +:+ productId) \/
  (exists brandId, r = "/brand/" +:+ brandId).

(** ** Animated values

    Each animated value is followed by the value its latest animation drives
    it to ([toValue]); before any animation that is the value it was created
    with. [height] is the height of the window. *)

Record Animations := mkAnimations {
  expandAnim : float;
  carIconRotate : float;
  carIconScale : float;
  gridOpacity : float;
  productsSlideAnim : float
}.

(** The [useRef(new Animated.Value(...)).current] of the first render. *)
Definition initialAnimations (height : float) : Animations :=
  {| expandAnim := 0; carIconRotate := 0; carIconScale := 1;
     gridOpacity := 0; productsSlideAnim := height |}.

(** The effect "Morphing car animation". *)
Definition morphEffect (s : SelectorState) (a : Animations) : Animations :=
  if decide (s <> Collapsed) then
    {| expandAnim := expandAnim a; carIconRotate := 1;
       carIconScale := 0x1.3333333333333p+0; gridOpacity := gridOpacity a;
       productsSlideAnim := productsSlideAnim a |}
  else
    {| expandAnim := expandAnim a; carIconRotate := 0;
       carIconScale := 1; gridOpacity := gridOpacity a;
       productsSlideAnim := productsSlideAnim a |}.

(** The effect "Expand/collapse animation": nothing is started in the
    products state. *)
Definition expandEffect (s : SelectorState) (a : Animations) : Animations :=
  if decide (s = Collapsed) then
    {| expandAnim := 0; carIconRotate := carIconRotate a;
       carIconScale := carIconScale a; gridOpacity := 0;
       productsSlideAnim := productsSlideAnim a |}
  else if decide (s = Brands \/ s = Models) then
    {| expandAnim := 1; carIconRotate := carIconRotate a;
       carIconScale := carIconScale a; gridOpacity := 1;
       productsSlideAnim := productsSlideAnim a |}
  else a.

(** The effect "Products slide animation". *)
Definition slideEffect (height : float) (s : SelectorState) (a : Animations)
    : Animations :=
  {| expandAnim := expandAnim a; carIconRotate := carIconRotate a;
     carIconScale := carIconScale a; gridOpacity := gridOpacity a;
     productsSlideAnim := if decide (s = Products) then 0%float else height |}.

(** The three effects, in the order of the component. *)
Definition useEffects (height : float) (s : SelectorState) (a : Animations)
    : Animations :=
  slideEffect height s (expandEffect s (morphEffect s a)).

(** After the first render the effects run once. *)
Definition mountedAnimations (height : float) : Animations :=
  useEffects height Collapsed (initialAnimations height).

(** One input, then the effects of the next render: they depend on
    [selectorState] and run when it changed. *)
Definition step_animated (height : float) (env : Env)
    (wa : World * Animations) (input : Input) : option (World * Animations) :=
  w' ← step env wa.1 input;
  Some (w',
        if decide (selectorState (comp w') = selectorState (comp wa.1))
        then wa.2
        else useEffects height (selectorState (comp w')) wa.2).

Inductive reachable_animated (height : float) : World * Animations -> Prop :=
| reachable_animated_init :
    reachable_animated height (initialWorld, mountedAnimations height)
| reachable_animated_step env wa input wa' :
    reachable_animated height wa ->
    step_animated height env wa input = Some wa' ->
    reachable_animated height wa'.

(** A run with the effects, skipping inputs that hit nothing. *)
Fixpoint run_animated (height : float) (env : Env) (wa : World * Animations)
    (inputs : list Input) : World * Animations :=
  match inputs with
  | [] => wa
  | input :: rest =>
      match step_animated height env wa input with
      | Some wa' => run_animated height env wa' rest
      | None => run_animated height env wa rest
      end
  end.

(** What the animated values are driven to in a selector state. *)
Definition animations_follow (height : float) (wa : World * Animations)
    : Prop :=
  (selectorState (comp wa.1) = Collapsed ->
     expandAnim wa.2 = 0%float /\ gridOpacity wa.2 = 0%float /\
     carIconRotate wa.2 = 0%float /\ carIconScale wa.2 = 1%float) /\
  (selectorState (comp wa.1) <> Collapsed ->
     expandAnim wa.2 = 1%float /\ gridOpacity wa.2 = 1%float /\
     carIconRotate wa.2 = 1%float /\
     carIconScale wa.2 = 0x1.3333333333333p+0%float) /\
  (selectorState (comp wa.1) = Products -> productsSlideAnim wa.2 = 0%float) /\
  (selectorState (comp wa.1) <> Products -> productsSlideAnim wa.2 = height).

(** ** The selection invariant *)

(** The selection is consistent: a selected model comes with a selected
    brand, and the products state comes with a selected model. *)
Definition selection_ok (st : State) : Prop :=
  (is_Some (selectedModel st) -> is_Some (selectedBrand st)) /\
  (selectorState st = Products -> is_Some (selectedModel st)).

Definition preserves (a : Act) : Prop :=
  forall w, selection_ok (comp w) -> selection_ok (comp (a w)).

(** ** Strings: what [includes] decides *)

Lemma prefix_append (t s : string) :
  String.prefix t s = true <-> exists post, s = t +:+ post.
Proof.
  revert s; induction t as [|a t IH]; intros s; simpl.
  - split; [intros _; exists s; reflexivity | intros _; now destruct s].
  - destruct s as [|b s]; simpl.
    + split; [discriminate | intros [post H]; discriminate].
    + destruct (ascii_dec a b) as [->|Hne].
      * rewrite IH. split; intros [post H]; exists post.
        -- now rewrite H.
        -- now injection H.
      * split; [discriminate | intros [post H]; injection H; congruence].
Qed.

Lemma includes_Substring (s t : string) :
  includes s t = true <-> Substring t s.
Proof.
  induction s as [|c s IH]; cbn [includes].
  - rewrite orb_false_r, prefix_append. split.
    + intros [post H]. exists "", post. exact H.
    + intros [pre [post H]]. destruct pre; [|discriminate].
      exists post. exact H.
  - rewrite orb_true_iff, prefix_append, IH. split.
    + intros [[post H]|[pre [post H]]].
      * exists "", post. exact H.
      * exists (String c pre), post. simpl. now rewrite H.
    + intros [pre [post H]]. destruct pre as [|c' pre]; simpl in H.
      * left. exists post. exact H.
      * right. exists pre, post. now injection H.
Qed.

(** ** Arrays: [filter] and [slice] *)

Lemma filter_loop_spec {T : Type} (cb : T -> bool) (O : list T) :
  forall fuel k A,
    (k + fuel = length O)%nat ->
    filter_loop cb O k fuel A = (A ++ List.filter cb (drop k O))%list.
Proof.
  induction fuel as [|fuel IH]; intros k A Hlen; simpl.
  - rewrite drop_ge by lia. simpl. now rewrite app_nil_r.
  - destruct (O !! k) as [x|] eqn:Hk.
    + rewrite IH by lia.
      rewrite (drop_S O x k Hk). simpl.
      destruct (cb x); [now rewrite <- app_assoc | reflexivity].
    + apply lookup_ge_None in Hk. lia.
Qed.

Lemma Array_filter_spec {T : Type} (cb : T -> bool) (O : list T) :
  Array_filter cb O = List.filter cb O.
Proof.
  unfold Array_filter. rewrite filter_loop_spec by lia. now rewrite drop_0.
Qed.

Lemma List_filter_sublist {T : Type} (cb : T -> bool) (l : list T) :
  List.filter cb l `sublist_of` l.
Proof.
  induction l as [|x l IH]; simpl.
  - constructor.
  - destruct (cb x); [now apply sublist_skip | now apply sublist_cons].
Qed.

Lemma List_filter_elem_of {T : Type} (cb : T -> bool) (l : list T) (x : T) :
  x ∈ List.filter cb l <-> x ∈ l /\ cb x = true.
Proof.
  rewrite !list_elem_of_In. apply filter_In.
Qed.

Lemma List_filter_true {T : Type} (cb : T -> bool) (l : list T) :
  (forall x, cb x = true) -> List.filter cb l = l.
Proof.
  intros H. induction l as [|x l IH]; simpl; [reflexivity|].
  now rewrite H, IH.
Qed.

(** ** The product filter *)

Lemma filteredProducts_filter (st : State) :
  filteredProducts st = List.filter (filterCallback st) (products st).
Proof. apply Array_filter_spec. Qed.

Lemma matchesSearch_empty (p : Product.t) : matchesSearch "" p = true.
Proof. reflexivity. Qed.

(** C10. With the empty search text and the price bracket 'all' the filter is
    the identity: [filteredProducts] is the [products] list itself. *)
Theorem filteredProducts_identity (st : State) :
  searchQuery st = "" -> priceFilter st = All ->
  filteredProducts st = products st.
Proof.
  intros Hq Hf. rewrite filteredProducts_filter.
  apply List_filter_true. intros p.
  unfold filterCallback. rewrite Hq, Hf. reflexivity.
Qed.

(** *** The brackets partition the prices

    For two positive finite thresholds, the lower with the smaller exponent,
    every float that is a number is below the lower one, or from the lower one
    up and below the upper one, or from the upper one up. *)

Section Thresholds.

Variables (a b : positive) (ea eb : Z).
Hypothesis exponents_lt : (ea < eb)%Z.

Lemma SFcompare_partition (x : spec_float) :
  x <> S754_nan ->
  (SFltb x (S754_finite false a ea) = true /\
   (SFleb (S754_finite false a ea) x
    && SFltb x (S754_finite false b eb)) = false /\
   SFleb (S754_finite false b eb) x = false) \/
  (SFltb x (S754_finite false a ea) = false /\
   (SFleb (S754_finite false a ea) x
    && SFltb x (S754_finite false b eb)) = true /\
   SFleb (S754_finite false b eb) x = false) \/
  (SFltb x (S754_finite false a ea) = false /\
   (SFleb (S754_finite false a ea) x
    && SFltb x (S754_finite false b eb)) = false /\
   SFleb (S754_finite false b eb) x = true).
Proof.
  unfold SFltb, SFleb.
  destruct x as [s|s| |s m e]; cbn [SFcompare]; intros Hnan.
  - destruct s; left; repeat split; reflexivity.
  - destruct s; [left | right; right]; repeat split; reflexivity.
  - congruence.
  - clear Hnan. destruct s; [left; repeat split; reflexivity|].
    change (PosDef.Pos.compare_cont Eq) with Pos.compare.
    rewrite (Z.compare_antisym e ea), (Z.compare_antisym e eb).
    rewrite (Pos.compare_antisym m a), (Pos.compare_antisym m b).
    destruct (Z.compare_spec e ea) as [He|He|He];
      destruct (Z.compare_spec e eb) as [He'|He'|He'].
    all: try (exfalso; clear - He He' exponents_lt; lia).
    all: cbn [CompOpp].
    all: destruct (Pos.compare m a); destruct (Pos.compare m b).
    all: cbn [CompOpp andb].
    all: first [ left; repeat split; reflexivity
               | right; left; repeat split; reflexivity
               | right; right; repeat split; reflexivity ].
Qed.

End Thresholds.

(** The three brackets partition the prices that are numbers: every such
    price is in exactly one of 'low', 'medium' and 'high'. *)
Lemma matchesPrice_partition (p : Product.t) :
  is_nan (Product.price p) = false ->
  (matchesPrice Low p = true /\ matchesPrice Medium p = false /\
   matchesPrice High p = false) \/
  (matchesPrice Low p = false /\ matchesPrice Medium p = true /\
   matchesPrice High p = false) \/
  (matchesPrice Low p = false /\ matchesPrice Medium p = false /\
   matchesPrice High p = true).
Proof.
  intros Hnan. unfold matchesPrice.
  rewrite !FloatAxioms.ltb_spec, !FloatAxioms.leb_spec.
  replace (Prim2SF 100%float) with (S754_finite false 7036874417766400 (-46))
    by (vm_compute; reflexivity).
  replace (Prim2SF 500%float) with (S754_finite false 8796093022208000 (-44))
    by (vm_compute; reflexivity).
  apply SFcompare_partition; [reflexivity|].
  intros Hx. unfold is_nan in Hnan.
  rewrite FloatAxioms.eqb_spec, Hx in Hnan. discriminate.
Qed.

(** C4. The price bracket predicate: 'low' is [price < 100], 'medium' is
    [100 <= price] and [price < 500], 'high' is [500 <= price] (the IEEE
    comparisons of the price); a price of exactly 100 is 'medium' and neither
    'low' nor 'high', a price of exactly 500 is 'high' and neither 'low' nor
    'medium'; a price that is a number is in exactly one of the three. *)
Theorem matchesPrice_brackets (p : Product.t) :
  (matchesPrice Low p = true <-> (Product.price p <? 100)%float = true) /\
  (matchesPrice Medium p = true <->
     (100 <=? Product.price p)%float = true /\
     (Product.price p <? 500)%float = true) /\
  (matchesPrice High p = true <-> (500 <=? Product.price p)%float = true) /\
  (Product.price p = 100%float ->
     matchesPrice Medium p = true /\ matchesPrice Low p = false /\
     matchesPrice High p = false) /\
  (Product.price p = 500%float ->
     matchesPrice High p = true /\ matchesPrice Low p = false /\
     matchesPrice Medium p = false) /\
  (is_nan (Product.price p) = false ->
     (matchesPrice Low p = true /\ matchesPrice Medium p = false /\
      matchesPrice High p = false) \/
     (matchesPrice Low p = false /\ matchesPrice Medium p = true /\
      matchesPrice High p = false) \/
     (matchesPrice Low p = false /\ matchesPrice Medium p = false /\
      matchesPrice High p = true)).
Proof.
  split; [reflexivity|].
  split; [apply andb_true_iff|].
  split; [reflexivity|].
  split; [intros Hp; unfold matchesPrice; rewrite Hp; repeat split; reflexivity|].
  split; [intros Hp; unfold matchesPrice; rewrite Hp; repeat split; reflexivity|].
  apply matchesPrice_partition.
Qed.

(** A price that is not a number is in no bracket. *)
Lemma matchesPrice_nan (p : Product.t) (f : PriceFilter) :
  Product.price p = nan -> f <> All -> matchesPrice f p = false.
Proof.
  intros H Hf. destruct f; [congruence| | |]; unfold matchesPrice;
    rewrite H; reflexivity.
Qed.

Lemma field_includes_Substring (field : option string) (q : string) :
  field_includes field q = true <->
  exists s, field = Some s /\ Substring (toLowerCase q) (toLowerCase s).
Proof.
  destruct field as [s|]; simpl.
  - rewrite includes_Substring. split.
    + intros H. exists s. auto.
    + intros [s' [[= <-] H]]. exact H.
  - split; [discriminate | intros [s [[=] _]]].
Qed.

(** C5. For a non-empty search text [q], a product passes the search
    predicate iff the lower-cased [q] is a substring of the lower-cased name,
    or of the lower-cased localized name when the product has one, or of the
    lower-cased SKU when it has one. With a [toLowerCase] that lower-cases
    Basic Latin text the way the host does, the search text "ABC" matches
    every product named "abc-123". *)
Theorem matchesSearch_substring :
  (forall (q : string) (p : Product.t), q <> "" ->
     (matchesSearch q p = true <->
      Substring (toLowerCase q) (toLowerCase (Product.name p)) \/
      (exists a, Product.name_ar p = Some a /\
                 Substring (toLowerCase q) (toLowerCase a)) \/
      (exists k, Product.sku p = Some k /\
                 Substring (toLowerCase q) (toLowerCase k)))) /\
  ((forall s, is_basic_latin s = true -> toLowerCase s = basic_latin_lower s) ->
   forall p : Product.t, Product.name p = "abc-123" ->
     matchesSearch "ABC" p = true).
Proof.
  split.
  - intros q p Hq. unfold matchesSearch.
    rewrite !orb_true_iff, bool_decide_eq_true, includes_Substring,
      !field_includes_Substring.
    tauto.
  - intros Hlow p Hname. unfold matchesSearch.
    rewrite Hname, !Hlow by reflexivity. reflexivity.
Qed.

(** C8, the store part: the loop writes the new array object only. *)
Lemma filter_loop_obj_spec {T : Type} (cb : T -> bool) (r a : nat)
    (O : list T) :
  r <> a ->
  forall fuel k (A : list T) (h : gmap nat (list T)),
    h !! r = Some O -> h !! a = Some A -> (k + fuel = length O)%nat ->
    filter_loop_obj cb r a k fuel h
    = <[a := filter_loop cb O k fuel A]> h.
Proof.
  intros Hra. induction fuel as [|fuel IH]; intros k A h Hr Ha Hlen; simpl.
  - now rewrite insert_id.
  - rewrite Hr. simpl. destruct (O !! k) as [x|] eqn:Hk.
    + destruct (cb x).
      * unfold push_obj.
        rewrite (IH (S k) (A ++ [x])%list).
        -- rewrite <- (insert_id h a A Ha) at 1.
           rewrite alter_insert_eq, insert_insert_eq.
           rewrite <- (insert_id h a A Ha) at 2.
           now rewrite insert_insert_eq.
        -- now rewrite lookup_alter_ne.
        -- now rewrite lookup_alter_eq, Ha.
        -- lia.
      * apply IH; [assumption|assumption|lia].
    + apply IH; [assumption|assumption|lia].
Qed.

Lemma Array_filter_obj_spec {T : Type} (cb : T -> bool) (r : nat)
    (h : gmap nat (list T)) (O : list T) :
  h !! r = Some O ->
  Array_filter_obj cb r h
  = Some (fresh (dom h), <[fresh (dom h) := Array_filter cb O]> h).
Proof.
  intros Hr. unfold Array_filter_obj. rewrite Hr. simpl.
  assert (Hfresh : h !! fresh (dom h) = None)
    by (apply not_elem_of_dom, is_fresh).
  assert (Hne : r <> fresh (dom h)) by (intros ->; congruence).
  rewrite (filter_loop_obj_spec cb r _ O Hne _ _ []).
  - now rewrite insert_insert_eq.
  - now rewrite lookup_insert_ne.
  - now rewrite lookup_insert_eq.
  - lia.
Qed.

(** C8. Computing [filteredProducts] from the array object the [products]
    cell refers to creates a new array object and writes nothing else: the
    fetched list and every other object of the store are as before (the
    cells of the component are only read). The new array is the sublist of
    [products], in the original order, of exactly the elements for which both
    the search and the price predicate hold. *)
Theorem filteredProducts_frame (st : State) (r : nat)
    (h : gmap nat (list Product.t)) :
  h !! r = Some (products st) ->
  exists (a : nat) (h' : gmap nat (list Product.t)),
    filteredProducts_obj st r h = Some (a, h') /\
    h !! a = None /\
    h' !! a = Some (filteredProducts st) /\
    h' !! r = Some (products st) /\
    (forall r', r' <> a -> h' !! r' = h !! r') /\
    filteredProducts st `sublist_of` products st /\
    filteredProducts st
    = List.filter
        (fun p => matchesSearch (searchQuery st) p
                  && matchesPrice (priceFilter st) p)
        (products st) /\
    (forall p, p ∈ filteredProducts st <->
       p ∈ products st /\ matchesSearch (searchQuery st) p = true /\
       matchesPrice (priceFilter st) p = true).
Proof.
  intros Hr.
  assert (Hfresh : h !! fresh (dom h) = None)
    by (apply not_elem_of_dom, is_fresh).
  exists (fresh (dom h)), (<[fresh (dom h) := filteredProducts st]> h).
  split; [exact (Array_filter_obj_spec _ r h _ Hr)|].
  split; [exact Hfresh|].
  split; [now rewrite lookup_insert_eq|].
  split; [rewrite lookup_insert_ne; [exact Hr | intros Heq; congruence]|].
  split; [intros r' Hne; now rewrite lookup_insert_ne|].
  rewrite filteredProducts_filter.
  split; [apply List_filter_sublist|].
  split; [reflexivity|].
  intros p. rewrite List_filter_elem_of. unfold filterCallback.
  now rewrite andb_true_iff.
Qed.

(** ** What is rendered *)

(** C6. With no brands in the store the component renders nothing, whatever
    its cells and the rest of the environment hold. *)
Theorem render_no_brands (env : Env) (st : State) :
  carBrands env = [] -> render env st = None.
Proof.
  intros H. unfold render. now rewrite H.
Qed.

(** With a brand in the store it renders the widget. *)
Lemma render_some_brands (env : Env) (st : State) :
  carBrands env <> [] -> is_Some (render env st).
Proof.
  intros H. unfold render.
  destruct (carBrands env); [congruence|]. simpl. eauto.
Qed.

Lemma Array_slice0_length {T : Type} (n : nat) (O : list T) :
  (length (Array_slice0 n O) <= n)%nat.
Proof. unfold Array_slice0. rewrite length_take. lia. Qed.

Lemma filteredModels_length (env : Env) (st : State) :
  (length (filteredModels env st) <= 10)%nat.
Proof.
  unfold filteredModels. destruct (selectedBrand st).
  - apply (Array_slice0_length (GRID_COLUMNS * GRID_ROWS)).
  - simpl. lia.
Qed.

(** C7. The brand grid shows the first 10 brands of the store and the model
    grid the first 10 models whose [brand_id] is the selected brand's [id];
    each has at most 10 tiles, and with no brand selected the model grid is
    empty. The tiles of a rendered grid are these lists. *)
Theorem grid_truncation (env : Env) (st : State) :
  displayBrands env = take 10 (carBrands env) /\
  (length (displayBrands env) <= 10)%nat /\
  (forall b, selectedBrand st = Some b ->
     filteredModels env st
     = take 10 (List.filter
                  (fun m => bool_decide (CarModel.brand_id m = CarBrand.id b))
                  (carModels env))) /\
  (length (filteredModels env st) <= 10)%nat /\
  (selectedBrand st = None -> filteredModels env st = []) /\
  (forall v g, render env st = Some v -> grid v = Some g ->
     (length (tiles g) <= 10)%nat /\
     (selectorState st = Brands ->
        tiles g = brandTile env <$> displayBrands env) /\
     (selectorState st = Models ->
        tiles g = modelTile env <$> filteredModels env st)).
Proof.
  split; [reflexivity|].
  split; [apply (Array_slice0_length (GRID_COLUMNS * GRID_ROWS))|].
  split.
  { intros b Hb. unfold filteredModels. rewrite Hb, Array_filter_spec.
    reflexivity. }
  split; [apply filteredModels_length|].
  split; [intros Hb; unfold filteredModels; now rewrite Hb|].
  intros v g Hv Hg. unfold render in Hv.
  destruct (decide (length (carBrands env) = 0%nat)); [discriminate|].
  injection Hv as <-. simpl in Hg.
  destruct (decide (selectorState st = Brands \/ selectorState st = Models));
    [|discriminate].
  injection Hg as <-. simpl.
  destruct (decide (selectorState st = Brands)) as [HB|HB].
  - rewrite length_fmap.
    split; [apply (Array_slice0_length (GRID_COLUMNS * GRID_ROWS))|].
    split; [reflexivity | congruence].
  - rewrite length_fmap.
    split; [apply filteredModels_length|].
    split; [congruence | reflexivity].
Qed.

(** ** The transition system *)

Ltac unfold_handlers :=
  unfold handleAnchorPress, handleBrandSelect, handleModelSelect,
    handleBackToModels, handleBackToBrands, handleProductPress,
    handleViewAllPress, handlePanelClosePress, fetchProductsForModel,
    fetchProductsForModel_resume, take_request, productApi_getAll,
    console_error, router_push, setSelectorState, setSelectedBrand,
    setSelectedModel, setProducts, setLoadingProducts, setSearchQuery,
    setPriceFilter, modify, seq, skip in *.

Ltac solve_preserves :=
  split; cbn in *; intros;
  try discriminate; try assumption;
  try (exfalso; eapply is_Some_None; eassumption); eauto.

Ltac intro_world :=
  let cells := fresh "cells" in
  intros [cells ? ? ?] [? ?]; destruct cells; cbn in *.

Lemma preserves_handleAnchorPress (st : State) : preserves (handleAnchorPress st).
Proof.
  intro_world. unfold handleAnchorPress.
  destruct (decide (selectorState st = Collapsed)); solve_preserves.
Qed.

Lemma preserves_handleBrandSelect (b : CarBrand.t) : preserves (handleBrandSelect b).
Proof. intro_world. solve_preserves. Qed.

Lemma preserves_handleBackToModels : preserves handleBackToModels.
Proof. intro_world. solve_preserves. Qed.

Lemma preserves_handleBackToBrands : preserves handleBackToBrands.
Proof. intro_world. solve_preserves. Qed.

Lemma preserves_handleProductPress (productId : string) :
  preserves (handleProductPress productId).
Proof. intro_world. solve_preserves. Qed.

Lemma preserves_handleViewAllPress (st : State) :
  preserves (handleViewAllPress st).
Proof.
  intro_world. unfold handleViewAllPress.
  destruct (decide (selectorState st = Brands)); [|destruct (selectedBrand st)];
    solve_preserves.
Qed.

Lemma preserves_handlePanelClosePress : preserves handlePanelClosePress.
Proof. intro_world. solve_preserves. Qed.

Lemma preserves_setSearchQuery (text : string) : preserves (setSearchQuery text).
Proof. intro_world. solve_preserves. Qed.

Lemma preserves_setPriceFilter (f : PriceFilter) : preserves (setPriceFilter f).
Proof. intro_world. solve_preserves. Qed.

Lemma preserves_settle (i : nat) (o : Settled) :
  preserves (take_request i ;; fetchProductsForModel_resume o).
Proof. intro_world. destruct o; solve_preserves. Qed.

(** Selecting a model keeps the selection consistent when a brand is
    selected. *)
Lemma handleModelSelect_ok (m : CarModel.t) (w : World) :
  is_Some (selectedBrand (comp w)) ->
  selection_ok (comp (handleModelSelect m w)).
Proof.
  intros Hb. unfold_handlers. split; simpl; eauto.
Qed.

(** The model grid has a tile only when a brand is selected. *)
Lemma filteredModels_lookup (env : Env) (st : State) (i : nat) (m : CarModel.t) :
  filteredModels env st !! i = Some m -> is_Some (selectedBrand st).
Proof.
  unfold filteredModels. destruct (selectedBrand st); [eauto|].
  rewrite lookup_nil. discriminate.
Qed.

Lemma renderBreadcrumb_onPress (env : Env) (st : State) (i : nat) (c : Crumb) :
  renderBreadcrumb env st !! i = Some c ->
  crumb_onPress c = handleBackToBrands \/ crumb_onPress c = handleBackToModels.
Proof.
  unfold renderBreadcrumb. intros H. apply list_elem_of_lookup_2 in H.
  destruct (selectedBrand st), (selectedModel st); simpl in H;
    repeat (apply elem_of_cons in H as [->|H]); simpl; auto;
    now apply elem_of_nil in H.
Qed.

Lemma step_selection_ok (env : Env) (w w' : World) (input : Input) :
  selection_ok (comp w) -> step env w input = Some w' ->
  selection_ok (comp w').
Proof.
  intros Hok Hstep. destruct input as [e|i o]; simpl in Hstep.
  - unfold render in Hstep.
    destruct (decide (length (carBrands env) = 0%nat)); [discriminate|].
    simpl in Hstep. destruct e; simpl in Hstep.
    + injection Hstep as <-. now apply preserves_handleAnchorPress.
    + destruct (decide (selectorState (comp w) = Collapsed)); [discriminate|].
      simpl in Hstep.
      destruct (renderBreadcrumb env (comp w) !! i) as [c|] eqn:Hc;
        [|discriminate].
      simpl in Hstep. injection Hstep as <-.
      destruct (renderBreadcrumb_onPress _ _ _ _ Hc) as [-> | ->].
      * now apply preserves_handleBackToBrands.
      * now apply preserves_handleBackToModels.
    + destruct (decide (selectorState (comp w) = Brands
                        \/ selectorState (comp w) = Models)); [|discriminate].
      simpl in Hstep.
      destruct (decide (selectorState (comp w) = Brands)).
      * rewrite list_lookup_fmap in Hstep.
        destruct (displayBrands env !! i) as [b|]; [|discriminate].
        simpl in Hstep. injection Hstep as <-.
        now apply preserves_handleBrandSelect.
      * rewrite list_lookup_fmap in Hstep.
        destruct (filteredModels env (comp w) !! i) as [m|] eqn:Hm;
          [|discriminate].
        simpl in Hstep. injection Hstep as <-.
        apply handleModelSelect_ok. eapply filteredModels_lookup, Hm.
    + destruct (decide (selectorState (comp w) = Brands
                        \/ selectorState (comp w) = Models)); [|discriminate].
      simpl in Hstep. injection Hstep as <-.
      now apply preserves_handleViewAllPress.
    + injection Hstep as <-. now apply preserves_handleBackToModels.
    + injection Hstep as <-. now apply preserves_handlePanelClosePress.
    + injection Hstep as <-. now apply preserves_setSearchQuery.
    + destruct i as [|[|[|[|i]]]]; simpl in Hstep; try discriminate;
        injection Hstep as <-; now apply preserves_setPriceFilter.
    + destruct (loadingProducts (comp w)); [discriminate|].
      destruct (decide (length (filteredProducts (comp w)) = 0%nat));
        [discriminate|].
      rewrite list_lookup_fmap in Hstep.
      destruct (filteredProducts (comp w) !! i) as [p|]; [|discriminate].
      simpl in Hstep. injection Hstep as <-.
      now apply preserves_handleProductPress.
  - destruct (inflight w !! i); [|discriminate].
    simpl in Hstep. injection Hstep as <-.
    now apply preserves_settle.
Qed.

(** The guard is the render's: the handler itself, called with no brand
    selected, would leave a model without a brand. *)
Lemma handleModelSelect_without_brand :
  ~ selection_ok (comp (handleModelSelect sampleModel initialWorld)).
Proof.
  intros [Hmb _]. cbn in Hmb. eapply is_Some_None, Hmb. eauto.
Qed.

Lemma selection_ok_initial : selection_ok initialState.
Proof.
  split; simpl; [intros H; now apply is_Some_None in H | discriminate].
Qed.

(** C2. In every world reachable from the initial one by gestures on the
    rendered widget and by the settling of requests, a selected model comes
    with a selected brand, and the products state comes with a selected
    model. *)
Theorem reachable_selection_consistent (w : World) :
  reachable w ->
  (is_Some (selectedModel (comp w)) -> is_Some (selectedBrand (comp w))) /\
  (selectorState (comp w) = Products -> is_Some (selectedModel (comp w))).
Proof.
  intros H. change (selection_ok (comp w)).
  induction H as [|env w input w' _ IH Hstep].
  - apply selection_ok_initial.
  - eapply step_selection_ok; eassumption.
Qed.

Lemma run_reachable (env : Env) (inputs : list Input) :
  forall w, reachable w -> reachable (run env w inputs).
Proof.
  induction inputs as [|input rest IH]; intros w Hw; simpl; [exact Hw|].
  destruct (step env w input) as [w'|] eqn:Hstep.
  - apply IH. eapply reachable_step; eassumption.
  - now apply IH.
Qed.

(** ** The product fetch *)

Lemma filteredProducts_no_products (st : State) :
  products st = [] -> filteredProducts st = [].
Proof.
  intros H. rewrite filteredProducts_filter, H. reflexivity.
Qed.

(** C3. The fetch for a model identifier raises the loading flag and awaits
    one request for that model. When a request in flight is rejected, the
    products list and [filteredProducts] are empty and the loading flag is
    down; the error goes to the console only: the cells of the component are
    those left by an answer with no product, and the panel shows the empty
    container. *)
Theorem fetch_failure_empties_products (env : Env) (modelId error : string) :
  (forall w,
     loadingProducts (comp (fetchProductsForModel modelId w)) = true /\
     inflight (fetchProductsForModel modelId w)
     = (inflight w ++ [ {| car_model_id := modelId; limit := 100 |} ])%list) /\
  (forall w i, is_Some (inflight w !! i) ->
     exists w',
       step env w (Settle i (Rejected error)) = Some w' /\
       products (comp w') = [] /\
       loadingProducts (comp w') = false /\
       filteredProducts (comp w') = [] /\
       (forall v, render env (comp w') = Some v ->
                  body (panel v) = EmptyContainer) /\
       Some (comp w') = comp <$> step env w (Settle i (Fulfilled emptyResponse)) /\
       console w' = (console w ++ [("Error fetching products:", error)])%list /\
       history w' = history w /\
       inflight w' = delete i (inflight w)).
Proof.
  split.
  - intros w. split; reflexivity.
  - intros w i [r Hr]. eexists. simpl. rewrite Hr. simpl.
    split; [reflexivity|].
    split; [reflexivity|].
    split; [reflexivity|].
    split; [reflexivity|].
    split; [|repeat split].
    intros v Hv. unfold render in Hv.
    destruct (decide (length (carBrands env) = 0%nat)); [discriminate|].
    injection Hv as <-. reflexivity.
Qed.

(** Entering the products state for a model whose fetch fails at once. *)
Lemma handleModelSelect_then_failure (env : Env) (m : CarModel.t)
    (error : string) (w : World) :
  exists w',
    step env (handleModelSelect m w)
      (Settle (length (inflight w)) (Rejected error)) = Some w' /\
    selectorState (comp w') = Products /\
    selectedModel (comp w') = Some m /\
    products (comp w') = [] /\
    loadingProducts (comp w') = false.
Proof.
  eexists. simpl. rewrite lookup_app_r by lia.
  rewrite Nat.sub_diag. simpl. repeat split.
Qed.

(** ** Collapsing *)

(** The anchor pressed while the widget is expanded resets every cell of the
    selection, the products, the search text and the price bracket. *)
Lemma handleAnchorPress_expanded (st : State) (w : World) :
  selectorState st <> Collapsed ->
  comp (handleAnchorPress st w)
  = {| selectorState := Collapsed; selectedBrand := None;
       selectedModel := None; products := [];
       loadingProducts := loadingProducts (comp w);
       searchQuery := ""; priceFilter := All |}.
Proof.
  intros H. unfold handleAnchorPress.
  destruct (decide (selectorState st = Collapsed)); [contradiction|].
  reflexivity.
Qed.

(** The close button of the products panel writes the selector state only. *)
Lemma handlePanelClosePress_cells (w : World) :
  comp (handlePanelClosePress w)
  = {| selectorState := Collapsed;
       selectedBrand := selectedBrand (comp w);
       selectedModel := selectedModel (comp w);
       products := products (comp w);
       loadingProducts := loadingProducts (comp w);
       searchQuery := searchQuery (comp w);
       priceFilter := priceFilter (comp w) |}.
Proof. reflexivity. Qed.

(** So does the "View All" tile. *)
Lemma handleViewAllPress_cells (st : State) (w : World) :
  comp (handleViewAllPress st w)
  = {| selectorState := Collapsed;
       selectedBrand := selectedBrand (comp w);
       selectedModel := selectedModel (comp w);
       products := products (comp w);
       loadingProducts := loadingProducts (comp w);
       searchQuery := searchQuery (comp w);
       priceFilter := priceFilter (comp w) |}.
Proof.
  unfold handleViewAllPress.
  destruct (decide (selectorState st = Brands)); [reflexivity|].
  destruct (selectedBrand st); reflexivity.
Qed.

(** Opening a product resets the selection and the products, and leaves the
    search text and the price bracket. *)
Lemma handleProductPress_cells (productId : string) (w : World) :
  comp (handleProductPress productId w)
  = {| selectorState := Collapsed; selectedBrand := None;
       selectedModel := None; products := [];
       loadingProducts := loadingProducts (comp w);
       searchQuery := searchQuery (comp w);
       priceFilter := priceFilter (comp w) |}.
Proof. reflexivity. Qed.


(** ** More on the product filter *)

Lemma string_append_assoc (a b c : string) :
  (a +:+ b) +:+ c = a +:+ (b +:+ c).
Proof.
  induction a as [|x a IH]; [reflexivity|].
  change (String x ((a +:+ b) +:+ c) = String x (a +:+ (b +:+ c))).
  now rewrite IH.
Qed.

Lemma Substring_trans (a b c : string) :
  Substring a b -> Substring b c -> Substring a c.
Proof.
  intros (p1 & s1 & ->) (p2 & s2 & ->).
  exists (p2 +:+ p1), (s1 +:+ s2).
  now rewrite !string_append_assoc.
Qed.

Lemma List_filter_sublist_impl {T : Type} (f g : T -> bool) (l : list T) :
  (forall x, f x = true -> g x = true) ->
  List.filter f l `sublist_of` List.filter g l.
Proof.
  intros Himpl. induction l as [|x l IH]; simpl; [constructor|].
  destruct (f x) eqn:Hf.
  - rewrite (Himpl x Hf). now apply sublist_skip.
  - destruct (g x); [now apply sublist_cons | exact IH].
Qed.

Lemma List_filter_ext_in {T : Type} (f g : T -> bool) (l : list T) :
  (forall x, x ∈ l -> f x = g x) -> List.filter f l = List.filter g l.
Proof.
  intros Hext. induction l as [|x l IH]; simpl; [reflexivity|].
  rewrite (Hext x) by (apply elem_of_cons; now left).
  rewrite IH; [reflexivity|].
  intros y Hy. apply Hext. apply elem_of_cons. now right.
Qed.

(** A longer search text matches fewer products. *)
Lemma matchesSearch_narrow (q q' : string) (p : Product.t) :
  q' <> "" -> Substring (toLowerCase q) (toLowerCase q') ->
  matchesSearch q' p = true -> matchesSearch q p = true.
Proof.
  intros Hq' Hsub. unfold matchesSearch.
  rewrite !orb_true_iff, !bool_decide_eq_true, !includes_Substring,
    !field_includes_Substring.
  intros [[[Hempty|Hname]|(a & Ha & Hsa)]|(k & Hk & Hsk)].
  - contradiction.
  - left. left. right. eapply Substring_trans; eassumption.
  - left. right. exists a. split; [exact Ha|].
    eapply Substring_trans; eassumption.
  - right. exists k. split; [exact Hk|].
    eapply Substring_trans; eassumption.
Qed.

(** X1. Replacing the search text by a non-empty one whose lower-casing
    contains the lower-casing of the old one (typing on) narrows the result:
    the new [filteredProducts] is a sublist of the old one. *)
Theorem search_narrows (w : World) (q' : string) :
  q' <> "" ->
  Substring (toLowerCase (searchQuery (comp w))) (toLowerCase q') ->
  filteredProducts (comp (setSearchQuery q' w))
    `sublist_of` filteredProducts (comp w).
Proof.
  intros Hq' Hsub. rewrite !filteredProducts_filter. simpl.
  apply List_filter_sublist_impl. intros p. unfold filterCallback. simpl.
  rewrite !andb_true_iff. intros [Hs Hp]. split; [|exact Hp].
  eapply matchesSearch_narrow; eassumption.
Qed.

(** X2. The search is blind to case: two non-empty search texts with the
    same lower-casing select the same products. *)
Theorem search_case_insensitive (w : World) (q q' : string) :
  q <> "" -> q' <> "" -> toLowerCase q = toLowerCase q' ->
  filteredProducts (comp (setSearchQuery q w))
  = filteredProducts (comp (setSearchQuery q' w)).
Proof.
  intros Hq Hq' Hlow. rewrite !filteredProducts_filter. simpl.
  apply List_filter_ext_in. intros p _. unfold filterCallback. simpl.
  f_equal. unfold matchesSearch, field_includes.
  rewrite Hlow, (bool_decide_eq_false_2 _ Hq), (bool_decide_eq_false_2 _ Hq').
  reflexivity.
Qed.

Lemma is_nan_Prim2SF (x : float) :
  is_nan x = true -> Prim2SF x = S754_nan.
Proof.
  unfold is_nan. rewrite FloatAxioms.eqb_spec. unfold SFeqb.
  destruct (Prim2SF x) as [s|s| |s m e]; cbn [SFcompare]; try reflexivity.
  - discriminate.
  - destruct s; discriminate.
  - change (PosDef.Pos.compare_cont Eq) with Pos.compare.
    rewrite Z.compare_refl, Pos.compare_refl. destruct s; discriminate.
Qed.

Lemma matchesPrice_is_nan (p : Product.t) (f : PriceFilter) :
  is_nan (Product.price p) = true -> f <> All -> matchesPrice f p = false.
Proof.
  intros Hnan Hf. apply is_nan_Prim2SF in Hnan.
  destruct f; [congruence| | |]; unfold matchesPrice;
    rewrite ?FloatAxioms.ltb_spec, ?FloatAxioms.leb_spec, Hnan;
    unfold SFltb, SFleb; cbn [SFcompare].
  - reflexivity.
  - destruct (Prim2SF 100%float); reflexivity.
  - destruct (Prim2SF 500%float); reflexivity.
Qed.

(** X3. Under a price bracket other than 'all', no listed product has a
    price that is not a number; under 'all' such a product is listed when the
    search text matches it. *)
Theorem nan_price_only_under_all (st : State) (p : Product.t) :
  (priceFilter st <> All -> p ∈ filteredProducts st ->
   is_nan (Product.price p) = false) /\
  (priceFilter st = All -> p ∈ products st ->
   matchesSearch (searchQuery st) p = true -> p ∈ filteredProducts st).
Proof.
  rewrite filteredProducts_filter. split.
  - intros Hf Hin. apply List_filter_elem_of in Hin as [_ Hcb].
    unfold filterCallback in Hcb. apply andb_true_iff in Hcb as [_ Hp].
    destruct (is_nan (Product.price p)) eqn:Hnan; [|reflexivity].
    rewrite (matchesPrice_is_nan p _ Hnan Hf) in Hp. discriminate.
  - intros Hf Hin Hs. apply List_filter_elem_of. split; [exact Hin|].
    unfold filterCallback. now rewrite Hs, Hf.
Qed.

Lemma brackets_permutation (q : string) (l : list Product.t) :
  Forall (fun p => is_nan (Product.price p) = false) l ->
  List.filter (fun p => matchesSearch q p && matchesPrice All p) l
  ≡ₚ List.filter (fun p => matchesSearch q p && matchesPrice Low p) l
     ++ List.filter (fun p => matchesSearch q p && matchesPrice Medium p) l
     ++ List.filter (fun p => matchesSearch q p && matchesPrice High p) l.
Proof.
  induction 1 as [|p l Hp _ IH]; [reflexivity|].
  cbn [List.filter]. destruct (matchesSearch q p); cbn [andb]; [|exact IH].
  destruct (matchesPrice_partition p Hp)
    as [(-> & -> & ->)|[(-> & -> & ->)|(-> & -> & ->)]];
    cbn [matchesPrice].
  - simpl. now rewrite IH.
  - rewrite IH. apply Permutation_middle.
  - rewrite IH. etrans; [apply Permutation_middle|].
    apply Permutation_app_head, Permutation_middle.
Qed.

(** X4. When every fetched price is a number, the three brackets split the
    list shown under 'all': it is a permutation of the 'low', 'medium' and
    'high' lists put together (same search text). *)
Theorem brackets_split_all (w : World) :
  Forall (fun p => is_nan (Product.price p) = false) (products (comp w)) ->
  filteredProducts (comp (setPriceFilter All w))
  ≡ₚ filteredProducts (comp (setPriceFilter Low w))
     ++ filteredProducts (comp (setPriceFilter Medium w))
     ++ filteredProducts (comp (setPriceFilter High w)).
Proof.
  intros Hnum. rewrite !filteredProducts_filter.
  exact (brackets_permutation (searchQuery (comp w)) _ Hnum).
Qed.

Lemma List_filter_idem {T : Type} (f : T -> bool) (l : list T) :
  List.filter f (List.filter f l) = List.filter f l.
Proof.
  induction l as [|x l IH]; simpl; [reflexivity|].
  destruct (f x) eqn:Hf; simpl; [rewrite Hf, IH; reflexivity | exact IH].
Qed.

(** Filtering is idempotent: with the filtered list put in the place of the
    fetched one, the same search text and bracket select all of it. *)
Lemma filteredProducts_idempotent (w : World) :
  filteredProducts (comp (setProducts (filteredProducts (comp w)) w))
  = filteredProducts (comp w).
Proof.
  rewrite (filteredProducts_filter (comp (setProducts _ w))).
  rewrite (filteredProducts_filter (comp w)).
  change (products (comp (setProducts ?l w))) with l.
  change (filterCallback (comp (setProducts ?l w)))
    with (filterCallback (comp w)).
  apply List_filter_idem.
Qed.

(** ** More on the grids *)

Lemma filteredModels_sublist (env : Env) (st : State) :
  filteredModels env st `sublist_of` carModels env.
Proof.
  unfold filteredModels. destruct (selectedBrand st) as [b|].
  - unfold Array_slice0. rewrite Array_filter_spec.
    etrans; [apply sublist_take | apply List_filter_sublist].
  - apply sublist_nil_l.
Qed.

(** X5. The model grid shows models of the selected brand only, all of them
    from the store and in the store's order; when the store has at most 10
    models of that brand, the grid shows every one of them. *)
Theorem model_grid_sound_complete (env : Env) (st : State) :
  filteredModels env st `sublist_of` carModels env /\
  (forall m, m ∈ filteredModels env st ->
     exists b, selectedBrand st = Some b /\
               CarModel.brand_id m = CarBrand.id b) /\
  (forall b, selectedBrand st = Some b ->
     (length (List.filter
                (fun m => bool_decide (CarModel.brand_id m = CarBrand.id b))
                (carModels env)) <= 10)%nat ->
     forall m, m ∈ carModels env -> CarModel.brand_id m = CarBrand.id b ->
               m ∈ filteredModels env st).
Proof.
  split; [apply filteredModels_sublist|]. split.
  - intros m Hm. unfold filteredModels in Hm.
    destruct (selectedBrand st) as [b|]; [|now apply elem_of_nil in Hm].
    exists b. split; [reflexivity|].
    unfold Array_slice0 in Hm. rewrite Array_filter_spec in Hm.
    apply elem_of_take in Hm as (i & Hi & _).
    apply list_elem_of_lookup_2, List_filter_elem_of in Hi as [_ Hb].
    now apply bool_decide_eq_true in Hb.
  - intros b Hb Hlen m Hm Hbrand. unfold filteredModels, Array_slice0.
    rewrite Hb, Array_filter_spec, take_ge by exact Hlen.
    apply List_filter_elem_of. split; [exact Hm|].
    now apply bool_decide_eq_true.
Qed.

(** X6. The brand grid shows a prefix of the store's brands, tile [i] being
    brand [i] of the store; when the store has at most 10 brands the grid
    shows them all. *)
Theorem brand_grid_prefix (env : Env) (st : State) :
  displayBrands env `prefix_of` carBrands env /\
  ((length (carBrands env) <= 10)%nat -> displayBrands env = carBrands env) /\
  (forall v g i, render env st = Some v -> grid v = Some g ->
     selectorState st = Brands -> (i < 10)%nat ->
     tiles g !! i = brandTile env <$> carBrands env !! i).
Proof.
  split; [apply prefix_take|]. split.
  - intros Hlen. unfold displayBrands, Array_slice0. now apply take_ge.
  - intros v g i Hv Hg Hs Hi. unfold render in Hv.
    destruct (decide (length (carBrands env) = 0%nat)); [discriminate|].
    injection Hv as <-. simpl in Hg.
    destruct (decide (selectorState st = Brands \/ selectorState st = Models));
      [|discriminate].
    injection Hg as <-. simpl.
    destruct (decide (selectorState st = Brands)); [|contradiction].
    rewrite list_lookup_fmap. unfold displayBrands, Array_slice0.
    now rewrite lookup_take_lt.
Qed.

Lemma tile_key_brandTile (env : Env) (l : list CarBrand.t) :
  tile_key <$> (brandTile env <$> l) = CarBrand.id <$> l.
Proof. rewrite <- list_fmap_compose. reflexivity. Qed.

Lemma tile_key_modelTile (env : Env) (l : list CarModel.t) :
  tile_key <$> (modelTile env <$> l) = CarModel.id <$> l.
Proof. rewrite <- list_fmap_compose. reflexivity. Qed.

Lemma card_key_productCard (env : Env) (l : list Product.t) :
  card_key <$> (productCard env <$> l) = Product.id <$> l.
Proof. rewrite <- list_fmap_compose. reflexivity. Qed.

(** X7. The React keys of a rendered list are pairwise distinct when the
    identifiers of the records behind it are, each list on its own condition:
    the tiles of the brand grid when the store's brand identifiers are
    distinct, the tiles of the model grid when the store's model identifiers
    are, the cards of the products panel when the fetched products'
    identifiers are. *)
Theorem rendered_keys_distinct (env : Env) (st : State) (v : View) :
  render env st = Some v ->
  (NoDup (CarBrand.id <$> carBrands env) ->
   selectorState st = Brands ->
   forall g, grid v = Some g -> NoDup (tile_key <$> tiles g)) /\
  (NoDup (CarModel.id <$> carModels env) ->
   selectorState st = Models ->
   forall g, grid v = Some g -> NoDup (tile_key <$> tiles g)) /\
  (NoDup (Product.id <$> products st) ->
   forall cards, body (panel v) = ProductsGrid cards ->
                 NoDup (card_key <$> cards)).
Proof.
  intros Hv. unfold render in Hv.
  destruct (decide (length (carBrands env) = 0%nat)); [discriminate|].
  injection Hv as <-. simpl. split; [|split].
  - intros Hbrands Hs g Hg.
    destruct (decide (selectorState st = Brands \/ selectorState st = Models));
      [|discriminate].
    injection Hg as <-. simpl.
    destruct (decide (selectorState st = Brands)); [|contradiction].
    rewrite tile_key_brandTile.
    eapply sublist_NoDup; [exact Hbrands|].
    apply fmap_sublist, sublist_take.
  - intros Hmodels Hs g Hg.
    destruct (decide (selectorState st = Brands \/ selectorState st = Models));
      [|discriminate].
    injection Hg as <-. simpl.
    destruct (decide (selectorState st = Brands)); [congruence|].
    rewrite tile_key_modelTile.
    eapply sublist_NoDup; [exact Hmodels|].
    apply fmap_sublist, filteredModels_sublist.
  - intros Hproducts cards Hcards.
    destruct (loadingProducts st); [discriminate|].
    destruct (decide (length (filteredProducts st) = 0%nat)); [discriminate|].
    injection Hcards as <-. rewrite card_key_productCard.
    eapply sublist_NoDup; [exact Hproducts|].
    apply fmap_sublist. rewrite filteredProducts_filter.
    apply List_filter_sublist.
Qed.

(** X8. [getName] falls back to the default name: its result is the default
    name unless the language is Arabic and a non-empty localized name is
    present, which it then is; so a record with a non-empty name never shows
    an empty label. *)
Theorem getName_fallback (lang name : string) (name_ar : option string) :
  (lang <> "ar" -> getName lang name name_ar = name) /\
  (name_ar = None \/ name_ar = Some "" -> getName lang name name_ar = name) /\
  (forall a, lang = "ar" -> name_ar = Some a -> a <> "" ->
             getName lang name name_ar = a) /\
  (name <> "" -> getName lang name name_ar <> "").
Proof.
  unfold getName. repeat split.
  - intros Hl. now destruct (decide (lang = "ar")).
  - intros [-> | ->]; destruct (decide (lang = "ar")); reflexivity.
  - intros a -> -> Ha. simpl. now destruct (decide (a = "")).
  - intros Hname. destruct (decide (lang = "ar")); [|exact Hname].
    destruct name_ar as [a|]; [|exact Hname].
    now destruct (decide (a = "")).
Qed.

(** ** Gestures, case by case *)

Lemma step_user_fires (env : Env) (w w' : World) (e : Event) :
  step env w (User e) = Some w' <->
  carBrands env <> [] /\ fires env w e w'.
Proof.
  unfold step, render.
  destruct (decide (length (carBrands env) = 0%nat)) as [Hlen|Hlen].
  { split; [discriminate|]. intros [Hne _].
    destruct (carBrands env); [congruence | discriminate]. }
  assert (Hne : carBrands env <> []) by (intros Heq; now rewrite Heq in Hlen).
  split.
  - intros Hstep. split; [exact Hne|]. destruct e; simpl in Hstep.
    + injection Hstep as <-. constructor.
    + destruct (decide (selectorState (comp w) = Collapsed)); [discriminate|].
      simpl in Hstep. unfold renderBreadcrumb in Hstep.
      destruct (selectedBrand (comp w)) as [b|] eqn:Hb,
               (selectedModel (comp w)) as [m|] eqn:Hm;
        destruct i as [|[|i]]; simpl in Hstep; try discriminate;
        injection Hstep as <-.
      * eapply fires_crumb_brand; eauto.
      * eapply fires_crumb_model; eauto. now rewrite Hb.
      * eapply fires_crumb_brand; eauto.
      * eapply fires_crumb_model; eauto. now rewrite Hb.
    + destruct (decide (selectorState (comp w) = Brands
                        \/ selectorState (comp w) = Models)) as [Hs|];
        [|discriminate].
      simpl in Hstep.
      destruct (decide (selectorState (comp w) = Brands)) as [HB|HB].
      * rewrite list_lookup_fmap in Hstep.
        destruct (displayBrands env !! i) as [b|] eqn:Hb; [|discriminate].
        injection Hstep as <-. now apply fires_tile_brand.
      * rewrite list_lookup_fmap in Hstep.
        destruct (filteredModels env (comp w) !! i) as [m|] eqn:Hm;
          [|discriminate].
        injection Hstep as <-. apply fires_tile_model; [|exact Hm].
        now destruct Hs.
    + destruct (decide (selectorState (comp w) = Brands
                        \/ selectorState (comp w) = Models)); [|discriminate].
      injection Hstep as <-. now constructor.
    + injection Hstep as <-. constructor.
    + injection Hstep as <-. constructor.
    + injection Hstep as <-. constructor.
    + destruct i as [|[|[|[|i]]]]; simpl in Hstep; try discriminate;
        injection Hstep as <-; now constructor.
    + destruct (loadingProducts (comp w)) eqn:Hl; [discriminate|].
      destruct (decide (length (filteredProducts (comp w)) = 0%nat));
        [discriminate|].
      simpl in Hstep. rewrite list_lookup_fmap in Hstep.
      destruct (filteredProducts (comp w) !! i) as [p|] eqn:Hp; [|discriminate].
      injection Hstep as <-. now constructor.
  - intros [_ Hf]. destruct Hf; simpl.
    + reflexivity.
    + destruct (decide (selectorState (comp w) = Collapsed)); [contradiction|].
      subst i. simpl. unfold renderBreadcrumb.
      rewrite H0. reflexivity.
    + destruct (decide (selectorState (comp w) = Collapsed)); [contradiction|].
      subst i. simpl. unfold renderBreadcrumb. rewrite H0.
      destruct (selectedBrand (comp w)); reflexivity.
    + destruct (decide (selectorState (comp w) = Brands
                        \/ selectorState (comp w) = Models)) as [|Hn];
        [|exfalso; apply Hn; now left].
      simpl. destruct (decide (selectorState (comp w) = Brands));
        [|contradiction].
      rewrite list_lookup_fmap, H0. reflexivity.
    + destruct (decide (selectorState (comp w) = Brands
                        \/ selectorState (comp w) = Models)) as [|Hn];
        [|exfalso; apply Hn; now right].
      simpl. destruct (decide (selectorState (comp w) = Brands)); [congruence|].
      rewrite list_lookup_fmap, H0. reflexivity.
    + destruct (decide (selectorState (comp w) = Brands
                        \/ selectorState (comp w) = Models));
        [reflexivity | contradiction].
    + reflexivity.
    + reflexivity.
    + reflexivity.
    + destruct i as [|[|[|[|i]]]]; simpl in H; try discriminate;
        injection H as <-; reflexivity.
    + rewrite H.
      destruct (decide (length (filteredProducts (comp w)) = 0%nat)) as [Hz|].
      { apply length_zero_iff_nil in Hz. rewrite Hz in H0. discriminate. }
      simpl. rewrite list_lookup_fmap, H0. reflexivity.
Qed.

Lemma step_settle_inv (env : Env) (w w' : World) (i : nat) (o : Settled) :
  step env w (Settle i o) = Some w' <->
  is_Some (inflight w !! i) /\
  w' = (take_request i ;; fetchProductsForModel_resume o) w.
Proof.
  simpl. destruct (inflight w !! i) as [r|]; simpl.
  - split; [intros [= <-]; eauto | intros [_ ->]; reflexivity].
  - split; [discriminate | intros [[r Hr] _]; discriminate].
Qed.

(** What a gesture may write besides the cells of the selection: it issues
    at most one request (a model tile does, raising the loading flag), pushes
    at most one route, and leaves the console alone. *)
Lemma fires_frame (env : Env) (w w' : World) (e : Event) :
  fires env w e w' ->
  ((inflight w' = inflight w /\
    loadingProducts (comp w') = loadingProducts (comp w)) \/
   (exists m, inflight w'
              = (inflight w
                 ++ [ {| car_model_id := CarModel.id m; limit := 100 |} ])%list /\
              loadingProducts (comp w') = true)) /\
  console w' = console w /\
  (history w' = history w \/
   exists r, history w' = (history w ++ [r])%list /\ widget_route r).
Proof.
  intros Hf. destruct w as [st infl cons hist].
  destruct Hf; cbn in *.
  - unfold handleAnchorPress.
    destruct (decide (selectorState st = Collapsed)); cbn; auto.
  - auto.
  - auto.
  - auto.
  - split; [right; eauto|]. auto.
  - unfold handleViewAllPress.
    destruct (decide (selectorState st = Brands)); cbn.
    + split; [auto|]. split; [reflexivity|]. right.
      eexists. split; [reflexivity|]. now left.
    + destruct (selectedBrand st) as [b|]; cbn; [|auto].
      split; [auto|]. split; [reflexivity|]. right.
      eexists. split; [reflexivity|]. right. right. eauto.
  - auto.
  - auto.
  - auto.
  - auto.
  - split; [auto|]. split; [reflexivity|]. right.
    eexists. split; [reflexivity|]. right. left. eauto.
Qed.

(** X9. No gesture cancels or answers a request, lowers the loading flag or
    writes the console: across a gesture the requests in flight and the
    router's history only grow at the end, the console is unchanged and a
    raised loading flag stays raised. *)
Theorem gestures_keep_requests (env : Env) (w w' : World) (e : Event) :
  step env w (User e) = Some w' ->
  inflight w `prefix_of` inflight w' /\
  history w `prefix_of` history w' /\
  console w' = console w /\
  (loadingProducts (comp w) = true -> loadingProducts (comp w') = true).
Proof.
  intros Hstep. apply step_user_fires in Hstep as [_ Hf].
  destruct (fires_frame env w w' e Hf) as (Hreq & Hcons & Hhist).
  split.
  { destruct Hreq as [[-> _]|(m & -> & _)];
      [reflexivity | now apply prefix_app_r]. }
  split.
  { destruct Hhist as [->|(r & -> & _)];
      [reflexivity | now apply prefix_app_r]. }
  split; [exact Hcons|].
  intros Hl. destruct Hreq as [[_ ->]|(m & _ & ->)]; [exact Hl | reflexivity].
Qed.

(** X10. The settling of a request writes the products and lowers the
    loading flag, whatever request it answers and whatever else is in flight:
    the products are those of the answer (none on a rejection or on an answer
    without a list), one request leaves the requests in flight, and the
    selector state, the selection, the search text, the bracket and the
    router's history are untouched. *)
Theorem settle_effect (env : Env) (w w' : World) (i : nat) (o : Settled) :
  step env w (Settle i o) = Some w' ->
  products (comp w')
  = match o with
    | Fulfilled response => response_products_or_empty response
    | Rejected _ => []
    end /\
  loadingProducts (comp w') = false /\
  inflight w' = delete i (inflight w) /\
  length (inflight w) = S (length (inflight w')) /\
  selectorState (comp w') = selectorState (comp w) /\
  selectedBrand (comp w') = selectedBrand (comp w) /\
  selectedModel (comp w') = selectedModel (comp w) /\
  searchQuery (comp w') = searchQuery (comp w) /\
  priceFilter (comp w') = priceFilter (comp w) /\
  history w' = history w.
Proof.
  intros Hstep. apply step_settle_inv in Hstep as [[r Hr] ->].
  assert (Hlen : length (inflight w) = S (length (delete i (inflight w)))).
  { rewrite length_delete by eauto. apply lookup_lt_Some in Hr. lia. }
  destruct o; cbn; repeat split; try reflexivity; exact Hlen.
Qed.

(** X11. The answer that arrives last wins, not the request issued last:
    with two requests in flight, when the second is answered first and the
    first afterwards, the products are those of the first request's answer,
    while the selected model is unchanged. *)
Theorem last_response_wins (env : Env) (w : World) (r1 r2 : Request)
    (rest : list Request) (a1 a2 : Response) :
  inflight w = r1 :: r2 :: rest ->
  products (comp (run env w [Settle 1 (Fulfilled a2); Settle 0 (Fulfilled a1)]))
  = response_products_or_empty a1 /\
  selectedModel
    (comp (run env w [Settle 1 (Fulfilled a2); Settle 0 (Fulfilled a1)]))
  = selectedModel (comp w) /\
  inflight (run env w [Settle 1 (Fulfilled a2); Settle 0 (Fulfilled a1)])
  = rest.
Proof.
  intros Hin. destruct w as [st infl cons hist]. cbn in Hin. subst infl.
  cbn. repeat split.
Qed.

(** ** More invariants of the reachable worlds *)

Lemma settle_world (i : nat) (o : Settled) (w : World) :
  inflight ((take_request i ;; fetchProductsForModel_resume o) w)
  = delete i (inflight w) /\
  loadingProducts
    (comp ((take_request i ;; fetchProductsForModel_resume o) w)) = false /\
  history ((take_request i ;; fetchProductsForModel_resume o) w) = history w /\
  (console ((take_request i ;; fetchProductsForModel_resume o) w) = console w \/
   exists error,
     console ((take_request i ;; fetchProductsForModel_resume o) w)
     = (console w ++ [("Error fetching products:", error)])%list).
Proof.
  destruct o; cbn; repeat split; eauto.
Qed.

(** X12. In every reachable world each request in flight asks for at most
    100 products, and the loading flag is raised only while a request is in
    flight. *)
Theorem requests_in_flight_invariant (w : World) :
  reachable w ->
  Forall (fun r => limit r = 100%nat) (inflight w) /\
  (loadingProducts (comp w) = true -> inflight w <> []).
Proof.
  induction 1 as [|env w input w' _ [IHlim IHload] Hstep].
  - split; [constructor | discriminate].
  - destruct input as [e|i o].
    + apply step_user_fires in Hstep as [_ Hf].
      destruct (fires_frame env w w' e Hf) as ([[-> ->]|(m & -> & ->)] & _).
      * split; assumption.
      * split.
        -- apply Forall_app. split; [exact IHlim | now apply Forall_singleton].
        -- intros _ Hnil. now apply app_eq_nil in Hnil as [_ [=]].
    + apply step_settle_inv in Hstep as [_ ->].
      destruct (settle_world i o w) as (-> & -> & _).
      split; [now apply Forall_delete | discriminate].
Qed.

(** X13. In every reachable world the router's history holds only the
    routes of the product page, the brand list and a brand page, and the
    console only reports of failed product fetches. *)
Theorem side_effects_invariant (w : World) :
  reachable w ->
  Forall widget_route (history w) /\
  Forall (fun entry => entry.1 = "Error fetching products:") (console w).
Proof.
  induction 1 as [|env w input w' _ [IHhist IHcons] Hstep].
  - split; constructor.
  - destruct input as [e|i o].
    + apply step_user_fires in Hstep as [_ Hf].
      destruct (fires_frame env w w' e Hf) as (_ & -> & [->|(r & -> & Hr)]).
      * split; assumption.
      * split; [|exact IHcons].
        apply Forall_app. split; [exact IHhist | now apply Forall_singleton].
    + apply step_settle_inv in Hstep as [_ ->].
      destruct (settle_world i o w) as (_ & _ & -> & [->|[error ->]]).
      * split; assumption.
      * split; [exact IHhist|].
        apply Forall_app. split; [exact IHcons | now apply Forall_singleton].
Qed.

(** ** Pressing a tile, a card, a chip *)

(** X14. In the brands state the tile [i] can be pressed exactly when [i] is
    below 10 and below the number of brands in the store; the press selects
    brand [i] of the store and enters the models state, whose grid is then
    the first 10 models of that brand. It sends no request and pushes no
    route. *)
Theorem press_brand_tile_selects (env : Env) (w : World) (i : nat) :
  selectorState (comp w) = Brands ->
  (is_Some (step env w (User (PressTile i))) <->
   (i < 10)%nat /\ (i < length (carBrands env))%nat) /\
  (forall w', step env w (User (PressTile i)) = Some w' ->
     exists b,
       carBrands env !! i = Some b /\
       selectedBrand (comp w') = Some b /\
       selectorState (comp w') = Models /\
       filteredModels env (comp w')
       = take 10 (List.filter
                    (fun m => bool_decide (CarModel.brand_id m = CarBrand.id b))
                    (carModels env)) /\
       inflight w' = inflight w /\ history w' = history w).
Proof.
  intros Hs. split.
  - split.
    + intros [w' Hstep]. apply step_user_fires in Hstep as [_ Hf].
      inversion Hf as [| | |j b _ Hb| j m Hm _| | | | | |]; subst;
        [|congruence].
      unfold displayBrands, Array_slice0 in Hb.
      apply lookup_take_Some in Hb as [Hb Hi].
      apply lookup_lt_Some in Hb. cbn in Hi. split; assumption.
    + intros [Hi Hlen].
      destruct (lookup_lt_is_Some_2 (carBrands env) i Hlen) as [b Hb].
      exists (handleBrandSelect b w). apply step_user_fires. split.
      * intros Hnil. rewrite Hnil in Hlen. cbn in Hlen. lia.
      * apply fires_tile_brand; [exact Hs|].
        unfold displayBrands, Array_slice0. now rewrite lookup_take_lt.
  - intros w' Hstep. apply step_user_fires in Hstep as [_ Hf].
    inversion Hf as [| | |j b _ Hb| j m Hm _| | | | | |]; subst;
      [|congruence].
    exists b. unfold displayBrands, Array_slice0 in Hb.
    apply lookup_take_Some in Hb as [Hb _].
    split; [exact Hb|]. split; [reflexivity|]. split; [reflexivity|].
    split; [|split; reflexivity].
    unfold filteredModels. cbn. now rewrite Array_filter_spec.
Qed.

(** X15. In the models state a press on tile [i] selects model [i] of the
    grid, a model of the selected brand, enters the products state, raises
    the loading flag and sends exactly one request, for that model with
    limit 100. The brand, the products fetched before, the search text and
    the bracket stay as they are. *)
Theorem press_model_tile_fetches (env : Env) (w w' : World) (i : nat) :
  selectorState (comp w) = Models ->
  step env w (User (PressTile i)) = Some w' ->
  exists m b,
    filteredModels env (comp w) !! i = Some m /\
    selectedBrand (comp w) = Some b /\
    CarModel.brand_id m = CarBrand.id b /\
    selectedModel (comp w') = Some m /\
    selectedBrand (comp w') = Some b /\
    selectorState (comp w') = Products /\
    loadingProducts (comp w') = true /\
    inflight w'
    = (inflight w
       ++ [ {| car_model_id := CarModel.id m; limit := 100 |} ])%list /\
    products (comp w') = products (comp w) /\
    searchQuery (comp w') = searchQuery (comp w) /\
    priceFilter (comp w') = priceFilter (comp w).
Proof.
  intros Hs Hstep. apply step_user_fires in Hstep as [_ Hf].
  inversion Hf as [| | |j b HB _| j m _ Hm| | | | | |]; subst;
    [congruence|].
  assert (Hin : m ∈ filteredModels env (comp w))
    by (eapply list_elem_of_lookup_2; exact Hm).
  unfold filteredModels in Hin.
  destruct (selectedBrand (comp w)) as [b|] eqn:Hb;
    [|now apply elem_of_nil in Hin].
  exists m, b. split; [exact Hm|]. split; [reflexivity|]. split.
  { unfold Array_slice0 in Hin. rewrite Array_filter_spec in Hin.
    apply elem_of_take in Hin as (k & Hk & _).
    apply list_elem_of_lookup_2, List_filter_elem_of in Hk as [_ Hk].
    now apply bool_decide_eq_true in Hk. }
  cbn. rewrite Hb. repeat split.
Qed.

(** X16. A product card can be pressed exactly when the widget is rendered,
    no fetch is loading and the card exists; the press pushes the route of
    the product shown on that card (the [i]-th of [filteredProducts], one of
    the fetched products), collapses the widget and empties the products. *)
Theorem press_card_opens_product (env : Env) (w : World) (i : nat) :
  (is_Some (step env w (User (PressCard i))) <->
   carBrands env <> [] /\ loadingProducts (comp w) = false /\
   (i < length (filteredProducts (comp w)))%nat) /\
  (forall w', step env w (User (PressCard i)) = Some w' ->
     exists p,
       filteredProducts (comp w) !! i = Some p /\
       p ∈ products (comp w) /\
       history w' = (history w ++ ["/product/" +:+ Product.id p])%list /\
       selectorState (comp w') = Collapsed /\
       products (comp w') = [] /\
       inflight w' = inflight w).
Proof.
  split.
  - split.
    + intros [w' Hstep]. apply step_user_fires in Hstep as [Hne Hf].
      inversion Hf as [| | | | | | | | | |j p Hl Hp]; subst.
      split; [exact Hne|]. split; [exact Hl|].
      now apply lookup_lt_Some in Hp.
    + intros (Hne & Hl & Hi).
      destruct (lookup_lt_is_Some_2 _ i Hi) as [p Hp].
      exists (handleProductPress (Product.id p) w).
      apply step_user_fires. split; [exact Hne|]. now constructor.
  - intros w' Hstep. apply step_user_fires in Hstep as [_ Hf].
    inversion Hf as [| | | | | | | | | |j p Hl Hp]; subst.
    exists p. split; [exact Hp|]. split; [|repeat split].
    apply list_elem_of_lookup_2 in Hp.
    rewrite filteredProducts_filter in Hp.
    now apply List_filter_elem_of in Hp as [Hp _].
Qed.

(** ** The search box and the chips *)

Lemma render_some (env : Env) (st : State) :
  carBrands env <> [] -> exists v, render env st = Some v /\
                                   panel v = renderPanel env st.
Proof.
  intros Hne. unfold render.
  destruct (decide (length (carBrands env) = 0%nat)) as [Hz|].
  - apply length_zero_iff_nil in Hz. contradiction.
  - eexists. split; reflexivity.
Qed.

(** X17. The filter controls are controlled inputs. After typing a text the
    next render shows that text in the search box and counts the products it
    selects under the current bracket. After a press on chip [i] (of four:
    all, low, medium, high) the bracket is the [i]-th and in the next render
    that chip, and no other, is active; there is no fifth chip. *)
Theorem filter_controls_round_trip (env : Env) (w : World) :
  carBrands env <> [] ->
  (forall text, exists w' v',
     step env w (User (ChangeSearchText text)) = Some w' /\
     render env (comp w') = Some v' /\
     search_value (panel v') = text /\
     headerCount (panel v')
     = length (List.filter
                 (fun p => matchesSearch text p
                           && matchesPrice (priceFilter (comp w)) p)
                 (products (comp w)))) /\
  (forall i f, [All; Low; Medium; High] !! i = Some f -> exists w' v',
     step env w (User (PressChip i)) = Some w' /\
     render env (comp w') = Some v' /\
     priceFilter (comp w') = f /\
     searchQuery (comp w') = searchQuery (comp w) /\
     length (chips (panel v')) = 4%nat /\
     (forall j c, chips (panel v') !! j = Some c ->
                  (chip_active c = true <-> j = i))) /\
  (forall i, (4 <= i)%nat -> step env w (User (PressChip i)) = None).
Proof.
  intros Hne. split; [|split].
  - intros text.
    destruct (render_some env (comp (setSearchQuery text w)) Hne)
      as (v' & Hv' & Hpanel).
    exists (setSearchQuery text w), v'. split.
    { apply step_user_fires. split; [exact Hne | constructor]. }
    split; [exact Hv'|]. rewrite Hpanel.
    split; [reflexivity|]. unfold renderPanel. cbn [headerCount].
    now rewrite filteredProducts_filter.
  - intros i f Hi.
    destruct (render_some env (comp (setPriceFilter f w)) Hne)
      as (v' & Hv' & Hpanel).
    exists (setPriceFilter f w), v'. split.
    { apply step_user_fires. split; [exact Hne | now constructor]. }
    split; [exact Hv'|]. rewrite Hpanel. cbn.
    split; [reflexivity|]. split; [reflexivity|]. split; [reflexivity|].
    intros j c Hc.
    destruct i as [|[|[|[|i]]]]; cbn in Hi; try discriminate;
      injection Hi as <-;
      destruct j as [|[|[|[|j]]]]; cbn in Hc; try discriminate;
      injection Hc as <-; cbn; split; (reflexivity || discriminate || lia).
  - intros i Hi.
    destruct (step env w (User (PressChip i))) as [w'|] eqn:Hstep;
      [|reflexivity].
    apply step_user_fires in Hstep as [_ Hf].
    inversion Hf as [| | | | | | | | |j f Hj|]; subst.
    apply lookup_lt_Some in Hj. cbn in Hj. lia.
Qed.

(** ** Resetting *)

(** X18. The anchor always brings the widget back: whatever the cells hold,
    one press of the anchor when the widget is expanded, two when it is
    collapsed, leave it collapsed with no brand, no model, no product, the
    empty search text and the bracket 'all'. *)
Theorem anchor_resets (env : Env) (w : World) :
  carBrands env <> [] ->
  comp (run env w
          (replicate (if decide (selectorState (comp w) = Collapsed)
                      then 2 else 1)
             (User PressAnchor)))
  = {| selectorState := Collapsed; selectedBrand := None;
       selectedModel := None; products := [];
       loadingProducts := loadingProducts (comp w);
       searchQuery := ""; priceFilter := All |}.
Proof.
  intros Hne.
  assert (Hstep : forall w0, step env w0 (User PressAnchor)
                             = Some (handleAnchorPress (comp w0) w0)).
  { intros w0. apply step_user_fires. split; [exact Hne | constructor]. }
  destruct (decide (selectorState (comp w) = Collapsed)) as [Hs|Hs];
    cbn [replicate run]; rewrite !Hstep.
  - assert (Hfirst : handleAnchorPress (comp w) w = setSelectorState Brands w).
    { unfold handleAnchorPress.
      now destruct (decide (selectorState (comp w) = Collapsed)). }
    rewrite Hfirst.
    now rewrite (handleAnchorPress_expanded
                   (comp (setSelectorState Brands w))
                   (setSelectorState Brands w)).
  - now apply handleAnchorPress_expanded.
Qed.

(** ** Animated values *)

Lemma fires_enters_products (env : Env) (w w' : World) (e : Event) :
  fires env w e w' ->
  selectorState (comp w') = Products ->
  selectorState (comp w) = Products \/ selectorState (comp w) = Models.
Proof.
  intros Hf. destruct w as [st infl cons hist].
  destruct Hf; cbn in *; try discriminate; auto.
  unfold handleAnchorPress.
  destruct (decide (selectorState st = Collapsed)); cbn; discriminate.
Qed.

Lemma step_enters_products (env : Env) (w w' : World) (input : Input) :
  step env w input = Some w' ->
  selectorState (comp w') = Products ->
  selectorState (comp w) = Products \/ selectorState (comp w) = Models.
Proof.
  destruct input as [e|i o]; intros Hstep Hs.
  - apply step_user_fires in Hstep as [_ Hf].
    eapply fires_enters_products; eassumption.
  - apply step_settle_inv in Hstep as [_ ->].
    left. destruct o; exact Hs.
Qed.

Lemma step_animated_follow (height : float) (env : Env)
    (wa wa' : World * Animations) (input : Input) :
  animations_follow height wa ->
  step_animated height env wa input = Some wa' ->
  animations_follow height wa'.
Proof.
  intros (Hc & He & Hp & Hnp) Hstep. unfold step_animated in Hstep.
  destruct (step env wa.1 input) as [w'|] eqn:Hw; [|discriminate].
  cbn in Hstep. injection Hstep as <-. unfold animations_follow. cbn [fst snd].
  destruct (decide (selectorState (comp w') = selectorState (comp wa.1)))
    as [Heq|Hne].
  - rewrite Heq. auto.
  - destruct (selectorState (comp w')) eqn:Hs'.
    + repeat split; intros; try congruence; try reflexivity.
    + repeat split; intros; try congruence; try reflexivity.
    + repeat split; intros; try congruence; try reflexivity.
    + destruct (step_enters_products env _ _ _ Hw Hs') as [Hold|Hold];
        [congruence|].
      assert (Hexp : selectorState (comp wa.1) <> Collapsed) by congruence.
      destruct (He Hexp) as (He1 & He2 & _).
      repeat split; intros; try congruence; try reflexivity; cbn; assumption.
Qed.

Lemma run_animated_reachable (height : float) (env : Env)
    (inputs : list Input) :
  forall wa, reachable_animated height wa ->
             reachable_animated height (run_animated height env wa inputs).
Proof.
  induction inputs as [|input rest IH]; intros wa Hwa; simpl; [exact Hwa|].
  destruct (step_animated height env wa input) as [wa'|] eqn:Hstep.
  - apply IH. eapply reachable_animated_step; eassumption.
  - now apply IH.
Qed.

(** X19. The animated values follow the selector state in every reachable
    world: the footer is driven open, the grid opaque and the car icon turned
    and enlarged exactly when the widget is not collapsed (also in the
    products state, where the expand effect starts nothing), and the products
    panel is driven on screen exactly in the products state, to the bottom of
    the window otherwise. *)
Theorem animations_follow_state (height : float) (wa : World * Animations) :
  reachable_animated height wa ->
  (selectorState (comp wa.1) = Collapsed ->
     expandAnim wa.2 = 0%float /\ gridOpacity wa.2 = 0%float /\
     carIconRotate wa.2 = 0%float /\ carIconScale wa.2 = 1%float) /\
  (selectorState (comp wa.1) <> Collapsed ->
     expandAnim wa.2 = 1%float /\ gridOpacity wa.2 = 1%float /\
     carIconRotate wa.2 = 1%float /\
     carIconScale wa.2 = 0x1.3333333333333p+0%float) /\
  (selectorState (comp wa.1) = Products -> productsSlideAnim wa.2 = 0%float) /\
  (selectorState (comp wa.1) <> Products -> productsSlideAnim wa.2 = height).
Proof.
  intros H. change (animations_follow height wa).
  induction H as [|env wa input wa' _ IH Hstep].
  - unfold animations_follow. cbn.
    repeat split; intros; try congruence; reflexivity.
  - eapply step_animated_follow; eassumption.
Qed.

(** ** The breadcrumb *)

(** X20. The breadcrumb has one crumb per selected record, the brand first:
    crumb [i] can be pressed exactly when the widget is rendered and expanded
    and [i] is below the number of selected records. Crumb 0 of a selected
    brand leads to the brands state with no brand and no model selected and
    the fetched products kept; the crumb of a selected model (crumb 1 after a
    brand's crumb, crumb 0 without one) leads to the models state with the
    brand kept, no model selected and no products. A press sends nothing:
    requests in flight stay in flight, the loading flag and the router's
    history are not touched. *)
Theorem press_crumb_goes_back (env : Env) (w : World) (i : nat) :
  length (renderBreadcrumb env (comp w))
  = (match selectedBrand (comp w) with Some _ => 1 | None => 0 end
     + match selectedModel (comp w) with Some _ => 1 | None => 0 end)%nat /\
  (is_Some (step env w (User (PressCrumb i))) <->
   carBrands env <> [] /\ selectorState (comp w) <> Collapsed /\
   (i < length (renderBreadcrumb env (comp w)))%nat) /\
  (forall w', step env w (User (PressCrumb i)) = Some w' ->
     ((is_Some (selectedBrand (comp w)) /\ i = 0%nat /\
       selectorState (comp w') = Brands /\
       selectedBrand (comp w') = None /\ selectedModel (comp w') = None /\
       products (comp w') = products (comp w)) \/
      (is_Some (selectedModel (comp w)) /\
       i = match selectedBrand (comp w) with Some _ => 1%nat | None => 0%nat end /\
       selectorState (comp w') = Models /\
       selectedBrand (comp w') = selectedBrand (comp w) /\
       selectedModel (comp w') = None /\ products (comp w') = [])) /\
     inflight w' = inflight w /\
     loadingProducts (comp w') = loadingProducts (comp w) /\
     searchQuery (comp w') = searchQuery (comp w) /\
     priceFilter (comp w') = priceFilter (comp w) /\
     console w' = console w /\
     history w' = history w).
Proof.
  assert (Hlen : length (renderBreadcrumb env (comp w))
    = (match selectedBrand (comp w) with Some _ => 1 | None => 0 end
       + match selectedModel (comp w) with Some _ => 1 | None => 0 end)%nat).
  { unfold renderBreadcrumb.
    destruct (selectedBrand (comp w)), (selectedModel (comp w)); reflexivity. }
  split; [exact Hlen|]. split.
  - split.
    + intros [w' Hstep]. apply step_user_fires in Hstep as [Hne Hf].
      split; [exact Hne|].
      inversion Hf as [|j b Hs Hb Hj|j m Hs Hm Hj| | | | | | | |]; subst;
        (split; [exact Hs|]); rewrite Hlen.
      * rewrite Hb. lia.
      * rewrite Hm. destruct (selectedBrand (comp w)); lia.
    + intros (Hne & Hs & Hi). rewrite Hlen in Hi.
      destruct (selectedBrand (comp w)) as [b|] eqn:Hb.
      * destruct i as [|i].
        -- exists (handleBackToBrands w). apply step_user_fires.
           split; [exact Hne|]. eapply fires_crumb_brand; eauto.
        -- destruct (selectedModel (comp w)) as [m|] eqn:Hm; [|cbn in Hi; lia].
           exists (handleBackToModels w). apply step_user_fires.
           split; [exact Hne|]. eapply fires_crumb_model; eauto.
           rewrite Hb. cbn in Hi. lia.
      * destruct (selectedModel (comp w)) as [m|] eqn:Hm; [|cbn in Hi; lia].
        exists (handleBackToModels w). apply step_user_fires.
        split; [exact Hne|]. eapply fires_crumb_model; eauto.
        rewrite Hb. cbn in Hi. lia.
  - intros w' Hstep. apply step_user_fires in Hstep as [_ Hf].
    inversion Hf as [|j b Hs Hb Hj|j m Hs Hm Hj| | | | | | | |]; subst.
    + split; [|repeat split].
      left. rewrite Hb. repeat split. eauto.
    + split; [|repeat split].
      right. rewrite Hm. repeat split. eauto.
Qed.

End Widget.

(** ** Runs of the widget on the sample data

    The host's lower-casing is taken on Basic Latin text. *)

(** C1, at the inputs where it fails. After browsing to the products of a
    model, each of the four ways into the collapsed state: the anchor resets
    everything; the close button of the panel keeps the brand, the model, the
    products, the search text and the price bracket; opening a product keeps
    the search text and the price bracket; "View All" (pressed on the model
    grid) keeps the brand. *)
Theorem collapse_keeps_stale_cells :
  comp (run basic_latin_lower sampleEnv initialWorld
          (browseToProducts ++ [User PressAnchor]))
  = initialState /\
  comp (run basic_latin_lower sampleEnv initialWorld
          (browseToProducts ++ [User PressPanelClose]))
  = {| selectorState := Collapsed; selectedBrand := Some sampleBrand;
       selectedModel := Some sampleModel; products := [sampleProduct];
       loadingProducts := false; searchQuery := "ABC";
       priceFilter := Medium |} /\
  comp (run basic_latin_lower sampleEnv initialWorld
          (browseToProducts ++ [User (PressCard 0)]))
  = {| selectorState := Collapsed; selectedBrand := None;
       selectedModel := None; products := [];
       loadingProducts := false; searchQuery := "ABC";
       priceFilter := Medium |} /\
  comp (run basic_latin_lower sampleEnv initialWorld
          [User PressAnchor; User (PressTile 0); User PressViewAll])
  = {| selectorState := Collapsed; selectedBrand := Some sampleBrand;
       selectedModel := None; products := [];
       loadingProducts := false; searchQuery := "";
       priceFilter := All |}.
Proof.
  repeat split; vm_compute; reflexivity.
Qed.

(** The walk collapsed, brands, models, products, back to models, back to
    brands, collapsed ends in the initial cells. *)
Lemma round_trip_resets :
  comp (run basic_latin_lower sampleEnv initialWorld
          [ User PressAnchor; User (PressTile 0); User (PressTile 0);
            Settle 0 (Fulfilled sampleResponse);
            User PressPanelBack; User (PressCrumb 0); User PressAnchor ])
  = initialState.
Proof. vm_compute. reflexivity. Qed.

(** Reopening after the panel was closed shows the brand grid with the brand
    and the model of the previous visit still selected. *)
Lemma reopen_after_close :
  comp (run basic_latin_lower sampleEnv initialWorld
          (browseToProducts ++ [User PressPanelClose; User PressAnchor]))
  = {| selectorState := Brands; selectedBrand := Some sampleBrand;
       selectedModel := Some sampleModel; products := [sampleProduct];
       loadingProducts := false; searchQuery := "ABC";
       priceFilter := Medium |}.
Proof. vm_compute. reflexivity. Qed.

(** ** The query provider's configuration *)

Lemma fetch_attempt_all_fail {A : Type} (fetchFn : nat -> option A) :
  (forall k, fetchFn k = None) ->
  forall retriesLeft k,
    QueryProvider.fetch_attempt fetchFn k retriesLeft
    = (None, S (k + retriesLeft)).
Proof.
  intros Hfail. induction retriesLeft as [|r IH]; intros k; simpl;
    rewrite Hfail.
  - now rewrite Nat.add_0_r.
  - rewrite IH. f_equal. lia.
Qed.

Lemma fetch_attempt_first_success {A : Type} (fetchFn : nat -> option A)
    (v : A) :
  forall n k retriesLeft,
    (n <= retriesLeft)%nat ->
    (forall j, (k <= j < k + n)%nat -> fetchFn j = None) ->
    fetchFn (k + n)%nat = Some v ->
    QueryProvider.fetch_attempt fetchFn k retriesLeft = (Some v, S (k + n)).
Proof.
  induction n as [|n IH]; intros k retriesLeft Hle Hfail Hok.
  - rewrite Nat.add_0_r in *. destruct retriesLeft; simpl; now rewrite Hok.
  - destruct retriesLeft as [|r]; [lia|]. simpl.
    rewrite (Hfail k) by lia.
    rewrite (IH (S k) r); [f_equal; lia | lia | |].
    + intros j Hj. apply Hfail. lia.
    + now replace (S k + n)%nat with (k + S n)%nat by lia.
Qed.

Lemma fetch_attempt_fail {A : Type} (fetchFn : nat -> option A) :
  forall retriesLeft k,
    (forall j, (k <= j <= k + retriesLeft)%nat -> fetchFn j = None) ->
    QueryProvider.fetch_attempt fetchFn k retriesLeft
    = (None, S (k + retriesLeft)).
Proof.
  induction retriesLeft as [|r IH]; intros k Hfail; simpl;
    rewrite (Hfail k) by lia.
  - now rewrite Nat.add_0_r.
  - rewrite IH; [f_equal; lia|]. intros j Hj. apply Hfail. lia.
Qed.

Lemma fetch_attempt_calls {A : Type} (fetchFn : nat -> option A) :
  forall retriesLeft k,
    (k < (QueryProvider.fetch_attempt fetchFn k retriesLeft).2
       <= S (k + retriesLeft))%nat.
Proof.
  induction retriesLeft as [|r IH]; intros k; simpl;
    destruct (fetchFn k); simpl; try lia.
  specialize (IH (S k)). lia.
Qed.

Lemma flushes_spaced {B : Type} (c : QueryProvider.PersisterConfig)
    (writes : list (Z * B)) :
  forall last pending,
    QueryProvider.spaced (QueryProvider.throttleTime c) last
      (QueryProvider.flush_time
         <$> QueryProvider.flushes c last pending writes).
Proof.
  induction writes as [|[t b] rest IH]; intros last pending; cbn.
  - destruct last as [l|], pending as [b0|]; cbn; auto. split; [lia | exact I].
  - destruct last as [l|]; [|cbn; split; [exact I | apply IH]].
    destruct pending as [b0|].
    + destruct (bool_decide_reflect
                  (t <= l + QueryProvider.throttleTime c)%Z) as [Ht|Ht];
        [apply IH|].
      cbn. split; [lia|].
      destruct (bool_decide_reflect
                  (l + QueryProvider.throttleTime c
                   + QueryProvider.throttleTime c <= t)%Z) as [Ht'|Ht'].
      * cbn. split; [exact Ht' | apply IH].
      * apply IH.
    + destruct (bool_decide_reflect
                  (l + QueryProvider.throttleTime c <= t)%Z) as [Ht|Ht].
      * cbn. split; [exact Ht | apply IH].
      * apply IH.
Qed.

Lemma flushes_pending_head {B : Type} (c : QueryProvider.PersisterConfig)
    (writes : list (Z * B)) :
  forall l b0, exists b' tl,
    QueryProvider.flushes c (Some l) (Some b0) writes
    = QueryProvider.mkFlush (l + QueryProvider.throttleTime c)%Z
        (QueryProvider.key c) b' :: tl.
Proof.
  induction writes as [|[t b] rest IH]; intros l b0; cbn; [eauto|].
  destruct (bool_decide (t <= l + QueryProvider.throttleTime c)%Z);
    [apply IH | eauto].
Qed.

Lemma ordered_from_weaken (lo lo' : Z) (ts : list Z) :
  (lo' <= lo)%Z -> QueryProvider.ordered_from lo ts ->
  QueryProvider.ordered_from lo' ts.
Proof.
  destruct ts as [|t rest]; cbn; [auto|]. intros Hle [Ht Hrest].
  split; [lia | exact Hrest].
Qed.

Lemma flushes_cover {B : Type} (c : QueryProvider.PersisterConfig)
    (writes : list (Z * B)) :
  (0 <= QueryProvider.throttleTime c)%Z ->
  forall l pending,
    QueryProvider.ordered_from l (fst <$> writes) ->
    forall tb, tb ∈ writes ->
      exists f, f ∈ QueryProvider.flushes c (Some l) pending writes /\
                (tb.1 <= QueryProvider.flush_time f
                 <= tb.1 + QueryProvider.throttleTime c)%Z /\
                QueryProvider.flush_key f = QueryProvider.key c.
Proof.
  intros Hd. induction writes as [|[t b] rest IH]; intros l pending Hord tb Hin.
  { now apply elem_of_nil in Hin. }
  cbn in Hord. destruct Hord as [Hlt Hord].
  assert (Hrest : forall l' pending', (l' <= t)%Z -> tb ∈ rest ->
            exists f, f ∈ QueryProvider.flushes c (Some l') pending' rest /\
              (tb.1 <= QueryProvider.flush_time f
               <= tb.1 + QueryProvider.throttleTime c)%Z /\
              QueryProvider.flush_key f = QueryProvider.key c).
  { intros l' pending' Hl' Hin'. apply IH; [|exact Hin'].
    eapply ordered_from_weaken; eassumption. }
  assert (Hhead : forall l' b1, (l' <= t <= l' + QueryProvider.throttleTime c)%Z ->
            exists f, f ∈ QueryProvider.flushes c (Some l') (Some b1) rest /\
              (t <= QueryProvider.flush_time f
               <= t + QueryProvider.throttleTime c)%Z /\
              QueryProvider.flush_key f = QueryProvider.key c).
  { intros l' b1 Hl'.
    destruct (flushes_pending_head c rest l' b1) as (b' & tl & ->).
    eexists. split; [apply elem_of_cons; left; reflexivity|].
    cbn. split; [lia | reflexivity]. }
  assert (Hself : exists f : QueryProvider.Flush B,
            f = QueryProvider.mkFlush t (QueryProvider.key c) b /\
            (t <= QueryProvider.flush_time f
             <= t + QueryProvider.throttleTime c)%Z /\
            QueryProvider.flush_key f = QueryProvider.key c).
  { eexists. split; [reflexivity|]. cbn. split; [lia | reflexivity]. }
  apply elem_of_cons in Hin as [-> | Hin]; cbn [QueryProvider.flushes fst];
    destruct pending as [b0|].
  - destruct (bool_decide_reflect
                (t <= l + QueryProvider.throttleTime c)%Z) as [Ht|Ht].
    + apply Hhead. lia.
    + destruct (bool_decide_reflect
                  (l + QueryProvider.throttleTime c
                   + QueryProvider.throttleTime c <= t)%Z) as [Ht'|Ht'].
      * destruct Hself as (f & -> & Hf). eexists. split; [|exact Hf].
        apply elem_of_cons. right. apply elem_of_cons. now left.
      * destruct (Hhead (l + QueryProvider.throttleTime c)%Z b) as (f & Hf & Hp);
          [lia|].
        exists f. split; [|exact Hp]. apply elem_of_cons. now right.
  - destruct (bool_decide_reflect
                (l + QueryProvider.throttleTime c <= t)%Z) as [Ht|Ht].
    + destruct Hself as (f & -> & Hf). eexists. split; [|exact Hf].
      apply elem_of_cons. now left.
    + apply Hhead. lia.
  - destruct (bool_decide_reflect
                (t <= l + QueryProvider.throttleTime c)%Z) as [Ht|Ht].
    + now apply Hrest.
    + destruct (bool_decide_reflect
                  (l + QueryProvider.throttleTime c
                   + QueryProvider.throttleTime c <= t)%Z) as [Ht'|Ht'].
      * destruct (Hrest t None) as (f & Hf & Hp); [lia | exact Hin|].
        exists f. split; [|exact Hp].
        apply elem_of_cons. right. apply elem_of_cons. now right.
      * destruct (Hrest (l + QueryProvider.throttleTime c)%Z (Some b))
          as (f & Hf & Hp); [lia | exact Hin|].
        exists f. split; [|exact Hp]. apply elem_of_cons. now right.
  - destruct (bool_decide_reflect
                (l + QueryProvider.throttleTime c <= t)%Z) as [Ht|Ht].
    + destruct (Hrest t None) as (f & Hf & Hp); [lia | exact Hin|].
      exists f. split; [|exact Hp]. apply elem_of_cons. now right.
    + now apply Hrest.
Qed.

Lemma flushes_last {B : Type} (c : QueryProvider.PersisterConfig)
    (writes : list (Z * B)) :
  forall l pending,
    last (QueryProvider.flush_value
            <$> QueryProvider.flushes c (Some l) pending writes)
    = match last (snd <$> writes) with
      | Some b => Some b
      | None => pending
      end.
Proof.
  induction writes as [|[t b] rest IH]; intros l pending.
  { destruct pending; reflexivity. }
  cbn [QueryProvider.flushes fmap list_fmap snd].
  rewrite (last_cons b).
  destruct pending as [b0|].
  - destruct (bool_decide (t <= l + QueryProvider.throttleTime c)%Z).
    + rewrite IH. now destruct (last (snd <$> rest)).
    + cbn [fmap list_fmap]. rewrite last_cons.
      destruct (bool_decide (l + QueryProvider.throttleTime c
                             + QueryProvider.throttleTime c <= t)%Z).
      * cbn [fmap list_fmap]. rewrite last_cons, IH. cbn.
        now destruct (last (snd <$> rest)).
      * rewrite IH. now destruct (last (snd <$> rest)).
  - destruct (bool_decide (l + QueryProvider.throttleTime c <= t)%Z).
    + cbn [fmap list_fmap]. rewrite last_cons, IH. cbn.
      now destruct (last (snd <$> rest)).
    + rewrite IH. now destruct (last (snd <$> rest)).
Qed.

(** C9. The configuration of the cache/query layer. A query is retried
    exactly 3 times: a fetch whose first 4 calls fail surfaces the failure
    after those 4 calls, whatever a further call would give; one that
    succeeds within them returns its value at that call; no fetch is called
    more than 4 times. The persister writes under the key
    'alghazaly-query-cache'; what was saved is restored exactly when it is at
    most 7 days old and carries the buster 'v1', so a change of the buster
    discards it. Flushes to the storage are at least 1000 ms apart, every
    write request is followed within 1000 ms by a flush under that key, and
    the last flush holds the value of the last request. *)
Theorem query_provider_configuration :
  QueryProvider.retry (QueryProvider.queries QueryProvider.queryClient) = 3%nat /\
  (forall (A : Type) (fetchFn : nat -> option A),
     (forall k, (k < 4)%nat -> fetchFn k = None) ->
     QueryProvider.query_fetch QueryProvider.queryClient fetchFn = (None, 4%nat)) /\
  (forall (A : Type) (fetchFn : nat -> option A) (n : nat) (v : A),
     (n <= 3)%nat -> (forall j, (j < n)%nat -> fetchFn j = None) ->
     fetchFn n = Some v ->
     QueryProvider.query_fetch QueryProvider.queryClient fetchFn = (Some v, S n)) /\
  (forall (A : Type) (fetchFn : nat -> option A),
     (1 <= (QueryProvider.query_fetch QueryProvider.queryClient fetchFn).2
        <= 4)%nat) /\
  QueryProvider.key (QueryProvider.persister QueryProvider.persistOptions)
  = "alghazaly-query-cache" /\
  QueryProvider.maxAge QueryProvider.persistOptions
  = (7 * QueryProvider.ms_per_day)%Z /\
  QueryProvider.buster QueryProvider.persistOptions = "v1" /\
  (forall (A : Type) (now : Z) (pc : QueryProvider.PersistedClient A),
     QueryProvider.restore QueryProvider.persistOptions now pc
     = Some (QueryProvider.clientState pc) <->
     (now - QueryProvider.timestamp pc <= 7 * QueryProvider.ms_per_day)%Z /\
     QueryProvider.persisted_buster pc = "v1") /\
  (forall (A : Type) (now : Z) (pc : QueryProvider.PersistedClient A),
     QueryProvider.persisted_buster pc <> "v1" ->
     QueryProvider.restore QueryProvider.persistOptions now pc = None) /\
  (forall (A : Type) (saved now : Z) (state : A),
     (QueryProvider.restore QueryProvider.persistOptions now
        (QueryProvider.save QueryProvider.persistOptions saved state)
      = Some state <-> (now - saved <= 7 * QueryProvider.ms_per_day)%Z) /\
     (forall o, QueryProvider.buster o <> "v1" ->
        QueryProvider.restore o now
          (QueryProvider.save QueryProvider.persistOptions saved state)
        = None)) /\
  QueryProvider.throttleTime
    (QueryProvider.persister QueryProvider.persistOptions) = 1000%Z /\
  (forall (B : Type) (last : option Z) (pending : option B)
          (writes : list (Z * B)),
     QueryProvider.spaced 1000 last
       (QueryProvider.flush_time
          <$> QueryProvider.flushes QueryProvider.asyncStoragePersister
                last pending writes)) /\
  (forall (B : Type) (start : Z) (writes : list (Z * B)),
     QueryProvider.ordered_from start (fst <$> writes) ->
     forall (t : Z) (b : B), (t, b) ∈ writes ->
       exists f,
         f ∈ QueryProvider.flushes QueryProvider.asyncStoragePersister
               None None writes /\
         (t <= QueryProvider.flush_time f <= t + 1000)%Z /\
         QueryProvider.flush_key f = "alghazaly-query-cache") /\
  (forall (B : Type) (writes : list (Z * B)),
     last (QueryProvider.flush_value
             <$> QueryProvider.flushes QueryProvider.asyncStoragePersister
                   None None writes)
     = last (snd <$> writes)).
Proof.
  split; [reflexivity|].
  split.
  { intros A fetchFn Hfail. unfold QueryProvider.query_fetch.
    rewrite fetch_attempt_fail; [reflexivity|].
    intros j Hj. apply Hfail. cbn in Hj. lia. }
  split.
  { intros A fetchFn n v Hn Hfail Hok. unfold QueryProvider.query_fetch.
    apply (fetch_attempt_first_success fetchFn v n 0%nat).
    - exact Hn.
    - intros j Hj. apply Hfail. lia.
    - exact Hok. }
  split.
  { intros A fetchFn. unfold QueryProvider.query_fetch.
    pose proof (fetch_attempt_calls fetchFn
                  (QueryProvider.retry
                     (QueryProvider.queries QueryProvider.queryClient)) 0)
      as Hcalls.
    cbn in Hcalls |- *. lia. }
  split; [reflexivity|].
  split; [reflexivity|].
  split; [reflexivity|].
  assert (Hrestore : forall (A : Type) (now : Z)
                            (pc : QueryProvider.PersistedClient A),
     QueryProvider.restore QueryProvider.persistOptions now pc
     = Some (QueryProvider.clientState pc) <->
     (now - QueryProvider.timestamp pc <= 7 * QueryProvider.ms_per_day)%Z /\
     QueryProvider.persisted_buster pc = "v1").
  { intros A now pc. unfold QueryProvider.restore.
    change (QueryProvider.maxAge QueryProvider.persistOptions)
      with (7 * QueryProvider.ms_per_day)%Z.
    change (QueryProvider.buster QueryProvider.persistOptions) with "v1".
    split.
    - intros H.
      destruct (bool_decide_reflect
                  (now - QueryProvider.timestamp pc
                   > 7 * QueryProvider.ms_per_day)%Z); [discriminate|].
      destruct (bool_decide_reflect (QueryProvider.persisted_buster pc = "v1"));
        [|discriminate].
      split; [lia | assumption].
    - intros [Hage Hb].
      rewrite bool_decide_eq_false_2 by lia.
      rewrite (bool_decide_eq_true_2 _ Hb). reflexivity. }
  split; [exact Hrestore|].
  split.
  { intros A now pc Hb. unfold QueryProvider.restore.
    change (QueryProvider.buster QueryProvider.persistOptions) with "v1".
    rewrite (bool_decide_eq_false_2 _ Hb). simpl. now rewrite orb_true_r. }
  split.
  { intros A saved now state. split.
    - rewrite (Hrestore A now
                 (QueryProvider.save QueryProvider.persistOptions saved state)).
      cbn. split; [intros [H _]; exact H | intros H; split; [exact H | reflexivity]].
    - intros o Ho. unfold QueryProvider.restore, QueryProvider.save. cbn.
      rewrite (bool_decide_eq_false_2 ("v1" = QueryProvider.buster o))
        by congruence.
      cbn. now rewrite orb_true_r. }
  split; [reflexivity|].
  split.
  { intros B last pending writes.
    apply (flushes_spaced QueryProvider.asyncStoragePersister). }
  split.
  { intros B start [|[t0 b0] rest] Hord t b Hin;
      [now apply elem_of_nil in Hin|].
    cbn in Hord. destruct Hord as [_ Hord].
    cbn [QueryProvider.flushes].
    apply elem_of_cons in Hin as [[= -> ->]|Hin].
    - eexists. split; [apply elem_of_cons; left; reflexivity|].
      cbn. split; [lia | reflexivity].
    - destruct (flushes_cover QueryProvider.asyncStoragePersister rest
                  ltac:(cbn; lia) t0 None Hord (t, b) Hin)
        as (f & Hf & Ht & Hk).
      exists f. split; [apply elem_of_cons; now right|].
      split; [exact Ht | exact Hk]. }
  intros B [|[t0 b0] rest]; [reflexivity|].
  cbn [QueryProvider.flushes fmap list_fmap snd].
  rewrite !last_cons, flushes_last. now destruct (last (snd <$> rest)).
Qed.

(** ** The theorems at the sample data *)

Lemma filteredProducts_identity_witness :
  searchQuery sampleUnfilteredState = "" /\
  priceFilter sampleUnfilteredState = All /\
  filteredProducts basic_latin_lower sampleUnfilteredState
  = products sampleUnfilteredState.
Proof.
  split; [reflexivity|]. split; [reflexivity|].
  apply (filteredProducts_identity basic_latin_lower sampleUnfilteredState);
    reflexivity.
Defined.

Lemma matchesPrice_brackets_witness :
  (Product.price productAt100 = 100%float /\
   matchesPrice Medium productAt100 = true /\
   matchesPrice Low productAt100 = false /\
   matchesPrice High productAt100 = false) /\
  (Product.price productAt500 = 500%float /\
   matchesPrice High productAt500 = true /\
   matchesPrice Low productAt500 = false /\
   matchesPrice Medium productAt500 = false).
Proof.
  split; (split; [reflexivity|]).
  - apply (proj1 (proj2 (proj2 (proj2 (matchesPrice_brackets productAt100))))).
    reflexivity.
  - apply (proj1 (proj2 (proj2 (proj2 (proj2
             (matchesPrice_brackets productAt500)))))).
    reflexivity.
Defined.

Lemma matchesSearch_substring_witness :
  (forall s, is_basic_latin s = true ->
             basic_latin_lower s = basic_latin_lower s) /\
  Product.name sampleProduct = "abc-123" /\
  matchesSearch basic_latin_lower "ABC" sampleProduct = true.
Proof.
  split; [reflexivity|]. split; [reflexivity|].
  apply (proj2 (matchesSearch_substring basic_latin_lower));
    reflexivity.
Defined.

Lemma render_no_brands_witness :
  carBrands emptyEnv = [] /\
  render basic_latin_lower emptyEnv sampleProductsState = None.
Proof.
  split; [reflexivity|].
  apply (render_no_brands basic_latin_lower emptyEnv sampleProductsState).
  reflexivity.
Defined.

Lemma grid_truncation_witness :
  selectedBrand sampleProductsState = Some sampleBrand /\
  filteredModels sampleEnv sampleProductsState = [sampleModel].
Proof.
  split; [reflexivity|].
  rewrite (proj1 (proj2 (proj2
             (grid_truncation basic_latin_lower sampleEnv sampleProductsState)))
             sampleBrand eq_refl).
  reflexivity.
Defined.

Lemma reachable_selection_consistent_witness :
  reachable basic_latin_lower
    (run basic_latin_lower sampleEnv initialWorld browseToProducts) /\
  selectorState
    (comp (run basic_latin_lower sampleEnv initialWorld browseToProducts))
  = Products /\
  is_Some (selectedModel
    (comp (run basic_latin_lower sampleEnv initialWorld browseToProducts))) /\
  is_Some (selectedBrand
    (comp (run basic_latin_lower sampleEnv initialWorld browseToProducts))).
Proof.
  assert (Hr : reachable basic_latin_lower
                 (run basic_latin_lower sampleEnv initialWorld browseToProducts))
    by (apply run_reachable, reachable_init).
  destruct (reachable_selection_consistent basic_latin_lower _ Hr) as [Hmb Hpm].
  split; [exact Hr|]. split; [reflexivity|].
  assert (Hm : is_Some (selectedModel
    (comp (run basic_latin_lower sampleEnv initialWorld browseToProducts))))
    by (apply Hpm; reflexivity).
  split; [exact Hm | exact (Hmb Hm)].
Defined.

Lemma fetch_failure_empties_products_witness :
  is_Some (inflight (handleModelSelect sampleModel initialWorld) !! 0%nat) /\
  exists w',
    step basic_latin_lower sampleEnv (handleModelSelect sampleModel initialWorld)
      (Settle 0 (Rejected "Network Error")) = Some w' /\
    products (comp w') = [] /\
    loadingProducts (comp w') = false /\
    filteredProducts basic_latin_lower (comp w') = [].
Proof.
  assert (H : is_Some (inflight (handleModelSelect sampleModel initialWorld)
                       !! 0%nat)) by (eexists; reflexivity).
  split; [exact H|].
  destruct (proj2 (fetch_failure_empties_products basic_latin_lower sampleEnv
                     "M1" "Network Error") _ 0%nat H)
    as (w' & Hstep & Hp & Hl & Hf & _).
  exists w'. auto.
Defined.

Lemma filteredProducts_frame_witness :
  sampleObjects !! 0%nat = Some (products sampleProductsState) /\
  exists (a : nat) (h' : gmap nat (list Product.t)),
    filteredProducts_obj basic_latin_lower sampleProductsState 0 sampleObjects
    = Some (a, h') /\
    h' !! a = Some [sampleProduct] /\
    h' !! 0%nat = Some [sampleProduct].
Proof.
  assert (H : sampleObjects !! 0%nat = Some (products sampleProductsState))
    by reflexivity.
  split; [exact H|].
  destruct (filteredProducts_frame basic_latin_lower sampleProductsState 0
              sampleObjects H)
    as (a & h' & Hrun & _ & Ha & Hr & _).
  exists a, h'. split; [exact Hrun|]. split; [exact Ha | exact Hr].
Defined.

(** ** Further theorems at the sample data *)

Lemma switchModels_run :
  run basic_latin_lower sampleEnv2 initialWorld switchModels = twoRequestsWorld.
Proof. vm_compute. reflexivity. Qed.

Lemma twoRequestsWorld_reachable : reachable basic_latin_lower twoRequestsWorld.
Proof.
  rewrite <- switchModels_run. apply run_reachable, reachable_init.
Qed.

Lemma sampleWorld_reachable : reachable basic_latin_lower sampleWorld.
Proof.
  replace sampleWorld
    with (run basic_latin_lower sampleEnv initialWorld
            (browseToProducts ++ [User (ChangeSearchText "abc")]))
    by (vm_compute; reflexivity).
  apply run_reachable, reachable_init.
Qed.

Lemma search_narrows_witness :
  "abc-1" <> "" /\
  Substring (basic_latin_lower (searchQuery (comp sampleWorld)))
    (basic_latin_lower "abc-1") /\
  filteredProducts basic_latin_lower (comp (setSearchQuery "abc-1" sampleWorld))
    `sublist_of` filteredProducts basic_latin_lower (comp sampleWorld).
Proof.
  assert (H1 : "abc-1" <> "") by discriminate.
  assert (H2 : Substring (basic_latin_lower (searchQuery (comp sampleWorld)))
                 (basic_latin_lower "abc-1"))
    by (exists "", "-1"; reflexivity).
  split; [exact H1|]. split; [exact H2|].
  exact (search_narrows basic_latin_lower sampleWorld "abc-1" H1 H2).
Defined.

Lemma search_case_insensitive_witness :
  basic_latin_lower "ABC" = basic_latin_lower "abc" /\
  filteredProducts basic_latin_lower (comp (setSearchQuery "ABC" sampleWorld))
  = filteredProducts basic_latin_lower (comp (setSearchQuery "abc" sampleWorld)).
Proof.
  split; [reflexivity|].
  apply (search_case_insensitive basic_latin_lower sampleWorld "ABC" "abc");
    [discriminate | discriminate | reflexivity].
Defined.

Lemma brackets_split_all_witness :
  Forall (fun p => is_nan (Product.price p) = false)
    (products (comp sampleWorld)) /\
  filteredProducts basic_latin_lower (comp (setPriceFilter All sampleWorld))
  ≡ₚ filteredProducts basic_latin_lower (comp (setPriceFilter Low sampleWorld))
     ++ filteredProducts basic_latin_lower
          (comp (setPriceFilter Medium sampleWorld))
     ++ filteredProducts basic_latin_lower
          (comp (setPriceFilter High sampleWorld)).
Proof.
  assert (H : Forall (fun p => is_nan (Product.price p) = false)
                (products (comp sampleWorld)))
    by (apply Forall_singleton; reflexivity).
  split; [exact H|].
  exact (brackets_split_all basic_latin_lower sampleWorld H).
Defined.

Lemma rendered_keys_distinct_witness :
  (exists v g,
     render basic_latin_lower sampleEnv3 brandsState = Some v /\
     grid v = Some g /\ tile_key <$> tiles g = ["B1"; "B2"] /\
     NoDup (tile_key <$> tiles g)) /\
  (exists v g,
     render basic_latin_lower sampleEnv3 modelsState = Some v /\
     grid v = Some g /\ tile_key <$> tiles g = ["M1"; "M2"] /\
     NoDup (tile_key <$> tiles g)) /\
  (exists v cards,
     render basic_latin_lower sampleEnv3 twoProductsState = Some v /\
     body (panel v) = ProductsGrid cards /\
     card_key <$> cards = ["P1"; "P2"] /\
     NoDup (card_key <$> cards)).
Proof.
  assert (Hpair : forall a b : string, a <> b -> NoDup [a; b]).
  { intros a b Hab. apply NoDup_cons. split; [|apply NoDup_singleton].
    intros Hin. apply list_elem_of_singleton in Hin. contradiction. }
  split; [|split].
  - eexists. eexists. split; [reflexivity|]. split; [reflexivity|].
    split; [reflexivity|].
    apply (proj1 (rendered_keys_distinct basic_latin_lower sampleEnv3
                    brandsState _ eq_refl));
      [apply Hpair; discriminate | reflexivity | reflexivity].
  - eexists. eexists. split; [reflexivity|]. split; [reflexivity|].
    split; [reflexivity|].
    apply (proj1 (proj2 (rendered_keys_distinct basic_latin_lower sampleEnv3
                           modelsState _ eq_refl)));
      [apply Hpair; discriminate | reflexivity | reflexivity].
  - eexists. eexists. split; [reflexivity|]. split; [reflexivity|].
    split; [reflexivity|].
    apply (proj2 (proj2 (rendered_keys_distinct basic_latin_lower sampleEnv3
                           twoProductsState _ eq_refl)));
      [apply Hpair; discriminate | reflexivity].
Defined.

Lemma gestures_keep_requests_witness :
  step basic_latin_lower sampleEnv2 twoRequestsWorld (User PressPanelBack)
  = Some (handleBackToModels twoRequestsWorld) /\
  inflight twoRequestsWorld
    `prefix_of` inflight (handleBackToModels twoRequestsWorld) /\
  loadingProducts (comp (handleBackToModels twoRequestsWorld)) = true.
Proof.
  assert (H : step basic_latin_lower sampleEnv2 twoRequestsWorld
                (User PressPanelBack)
              = Some (handleBackToModels twoRequestsWorld)) by reflexivity.
  destruct (gestures_keep_requests basic_latin_lower _ _ _ _ H)
    as (Hreq & _ & _ & Hload).
  split; [exact H|]. split; [exact Hreq | exact (Hload eq_refl)].
Defined.

Lemma settle_effect_witness :
  exists w',
    step basic_latin_lower sampleEnv2 twoRequestsWorld
      (Settle 0 (Fulfilled sampleResponse)) = Some w' /\
    products (comp w') = [sampleProduct] /\
    loadingProducts (comp w') = false /\
    length (inflight w') = 1%nat.
Proof.
  eexists. split; [reflexivity|].
  destruct (settle_effect basic_latin_lower sampleEnv2 twoRequestsWorld _ 0
              (Fulfilled sampleResponse) eq_refl)
    as (Hp & Hl & Hin & _).
  split; [exact Hp|]. split; [exact Hl|]. rewrite Hin. reflexivity.
Defined.

Lemma last_response_wins_witness :
  inflight twoRequestsWorld
  = [ {| car_model_id := "M1"; limit := 100 |};
      {| car_model_id := "M2"; limit := 100 |} ] /\
  selectedModel (comp twoRequestsWorld) = Some sampleModel2 /\
  products
    (comp (run basic_latin_lower sampleEnv2 twoRequestsWorld
             [Settle 1 (Fulfilled emptyResponse);
              Settle 0 (Fulfilled sampleResponse)]))
  = [sampleProduct] /\
  selectedModel
    (comp (run basic_latin_lower sampleEnv2 twoRequestsWorld
             [Settle 1 (Fulfilled emptyResponse);
              Settle 0 (Fulfilled sampleResponse)]))
  = Some sampleModel2.
Proof.
  split; [reflexivity|]. split; [reflexivity|].
  destruct (last_response_wins basic_latin_lower sampleEnv2 twoRequestsWorld
              _ _ [] sampleResponse emptyResponse eq_refl)
    as (Hp & Hm & _).
  split; [exact Hp | exact Hm].
Defined.

Lemma requests_in_flight_invariant_witness :
  reachable basic_latin_lower twoRequestsWorld /\
  Forall (fun r => limit r = 100%nat) (inflight twoRequestsWorld) /\
  inflight twoRequestsWorld <> [].
Proof.
  destruct (requests_in_flight_invariant basic_latin_lower twoRequestsWorld
              twoRequestsWorld_reachable) as [Hlim Hload].
  split; [exact twoRequestsWorld_reachable|].
  split; [exact Hlim | exact (Hload eq_refl)].
Defined.

Lemma side_effects_invariant_witness :
  reachable basic_latin_lower
    (run basic_latin_lower sampleEnv initialWorld
       (browseToProducts ++ [User (PressCard 0)])) /\
  Forall widget_route
    (history (run basic_latin_lower sampleEnv initialWorld
                (browseToProducts ++ [User (PressCard 0)]))).
Proof.
  assert (H : reachable basic_latin_lower
                (run basic_latin_lower sampleEnv initialWorld
                   (browseToProducts ++ [User (PressCard 0)])))
    by apply run_reachable, reachable_init.
  split; [exact H|].
  exact (proj1 (side_effects_invariant basic_latin_lower _ H)).
Defined.

Lemma press_brand_tile_selects_witness :
  selectorState (comp (setSelectorState Brands initialWorld)) = Brands /\
  is_Some (step basic_latin_lower sampleEnv2
             (setSelectorState Brands initialWorld) (User (PressTile 0))).
Proof.
  split; [reflexivity|].
  apply (proj1 (press_brand_tile_selects basic_latin_lower sampleEnv2
                  (setSelectorState Brands initialWorld) 0 eq_refl)).
  split; cbn; lia.
Defined.

Lemma press_model_tile_fetches_witness :
  exists w',
    step basic_latin_lower sampleEnv2
      (handleBrandSelect sampleBrand initialWorld) (User (PressTile 1))
    = Some w' /\
    selectedModel (comp w') = Some sampleModel2 /\
    inflight w' = [ {| car_model_id := "M2"; limit := 100 |} ].
Proof.
  eexists. split; [reflexivity|].
  destruct (press_model_tile_fetches basic_latin_lower sampleEnv2
              (handleBrandSelect sampleBrand initialWorld) _ 1
              eq_refl eq_refl)
    as (m & b & Hm & _ & _ & Hsel & _ & _ & _ & Hin & _).
  cbn in Hm. injection Hm as <-.
  split; [exact Hsel | exact Hin].
Defined.

Lemma filter_controls_round_trip_witness :
  carBrands sampleEnv <> [] /\
  exists w' v',
    step basic_latin_lower sampleEnv sampleWorld (User (PressChip 3)) = Some w' /\
    render basic_latin_lower sampleEnv (comp w') = Some v' /\
    priceFilter (comp w') = High.
Proof.
  assert (H : carBrands sampleEnv <> []) by discriminate.
  split; [exact H|].
  destruct (proj1 (proj2 (filter_controls_round_trip basic_latin_lower
                            sampleEnv sampleWorld H)) 3%nat High eq_refl)
    as (w' & v' & Hstep & Hv & Hf & _).
  exists w', v'. auto.
Defined.

Lemma anchor_resets_witness :
  carBrands sampleEnv <> [] /\
  comp (run basic_latin_lower sampleEnv sampleWorld [User PressAnchor])
  = initialState.
Proof.
  assert (H : carBrands sampleEnv <> []) by discriminate.
  split; [exact H|].
  exact (anchor_resets basic_latin_lower sampleEnv sampleWorld H).
Defined.

Lemma animations_follow_state_witness :
  reachable_animated basic_latin_lower 800
    (run_animated basic_latin_lower 800 sampleEnv
       (initialWorld, mountedAnimations 800)
       [User PressAnchor; User (PressTile 0); User (PressTile 0)]) /\
  selectorState
    (comp (run_animated basic_latin_lower 800 sampleEnv
             (initialWorld, mountedAnimations 800)
             [User PressAnchor; User (PressTile 0); User (PressTile 0)]).1)
  = Products /\
  expandAnim
    (run_animated basic_latin_lower 800 sampleEnv
       (initialWorld, mountedAnimations 800)
       [User PressAnchor; User (PressTile 0); User (PressTile 0)]).2
  = 1%float /\
  carIconScale
    (run_animated basic_latin_lower 800 sampleEnv
       (initialWorld, mountedAnimations 800)
       [User PressAnchor; User (PressTile 0); User (PressTile 0)]).2
  = 0x1.3333333333333p+0%float /\
  productsSlideAnim
    (run_animated basic_latin_lower 800 sampleEnv
       (initialWorld, mountedAnimations 800)
       [User PressAnchor; User (PressTile 0); User (PressTile 0)]).2
  = 0%float /\
  productsSlideAnim
    (run_animated basic_latin_lower 800 sampleEnv
       (initialWorld, mountedAnimations 800)
       [User PressAnchor; User (PressTile 0); User (PressTile 0);
        User PressPanelClose]).2
  = 800%float.
Proof.
  assert (Hinit : reachable_animated basic_latin_lower 800
                    (initialWorld, mountedAnimations 800)) by constructor.
  pose proof (run_animated_reachable basic_latin_lower 800 sampleEnv
                [User PressAnchor; User (PressTile 0); User (PressTile 0)]
                _ Hinit) as Hproducts.
  pose proof (run_animated_reachable basic_latin_lower 800 sampleEnv
                [User PressAnchor; User (PressTile 0); User (PressTile 0);
                 User PressPanelClose]
                _ Hinit) as Hclosed.
  destruct (animations_follow_state basic_latin_lower 800 _ Hproducts)
    as (_ & Hexp & Hon & _).
  destruct (animations_follow_state basic_latin_lower 800 _ Hclosed)
    as (_ & _ & _ & Hoff).
  assert (Hs : selectorState
    (comp (run_animated basic_latin_lower 800 sampleEnv
             (initialWorld, mountedAnimations 800)
             [User PressAnchor; User (PressTile 0); User (PressTile 0)]).1)
    = Products) by reflexivity.
  split; [exact Hproducts|]. split; [exact Hs|].
  destruct Hexp as (He & _ & _ & Hscale); [rewrite Hs; discriminate|].
  split; [exact He|]. split; [exact Hscale|]. split; [exact (Hon Hs)|].
  apply Hoff. discriminate.
Defined.

Lemma press_crumb_goes_back_witness :
  (exists w',
     step basic_latin_lower sampleEnv sampleWorld (User (PressCrumb 0)) = Some w' /\
     selectorState (comp w') = Brands /\ selectedBrand (comp w') = None /\
     products (comp w') = [sampleProduct]) /\
  (exists w',
     step basic_latin_lower sampleEnv sampleWorld (User (PressCrumb 1)) = Some w' /\
     selectorState (comp w') = Models /\
     selectedBrand (comp w') = Some sampleBrand /\ products (comp w') = []) /\
  step basic_latin_lower sampleEnv sampleWorld (User (PressCrumb 2)) = None.
Proof.
  split; [|split].
  - eexists. split; [reflexivity|].
    destruct (proj2 (proj2 (press_crumb_goes_back basic_latin_lower sampleEnv
                              sampleWorld 0)) _ eq_refl)
      as ([(_ & _ & Hs & Hb & _ & Hp)|(_ & Hi & _)] & _).
    + split; [exact Hs|]. split; [exact Hb | exact Hp].
    + discriminate.
  - eexists. split; [reflexivity|].
    destruct (proj2 (proj2 (press_crumb_goes_back basic_latin_lower sampleEnv
                              sampleWorld 1)) _ eq_refl)
      as ([(_ & Hi & _)|(_ & _ & Hs & Hb & _ & Hp)] & _).
    + discriminate.
    + split; [exact Hs|]. split; [exact Hb | exact Hp].
  - destruct (step basic_latin_lower sampleEnv sampleWorld (User (PressCrumb 2)))
      as [w'|] eqn:Hstep; [|reflexivity].
    destruct (proj1 (proj1 (proj2 (press_crumb_goes_back basic_latin_lower
                                     sampleEnv sampleWorld 2)))
                (ex_intro _ w' Hstep))
      as (_ & _ & Hi).
    cbn in Hi. lia.
Defined.

(** Two write requests 100 ms apart: the first is flushed at once, the second
    at the end of the interval. *)
Lemma flushes_defers_write :
  QueryProvider.flushes QueryProvider.asyncStoragePersister None None
    [(10000%Z, "a"); (10100%Z, "b")]
  = [ QueryProvider.mkFlush 10000%Z "alghazaly-query-cache" "a";
      QueryProvider.mkFlush 11000%Z "alghazaly-query-cache" "b" ].
Proof. vm_compute. reflexivity. Qed.

Lemma query_provider_configuration_witness :
  QueryProvider.ordered_from 0 (fst <$> [(10000%Z, "a"); (10100%Z, "b")]) /\
  (exists f,
     f ∈ QueryProvider.flushes QueryProvider.asyncStoragePersister None None
           [(10000%Z, "a"); (10100%Z, "b")] /\
     (10100 <= QueryProvider.flush_time f <= 10100 + 1000)%Z /\
     QueryProvider.flush_key f = "alghazaly-query-cache") /\
  QueryProvider.query_fetch QueryProvider.queryClient
    (fun k => if (k <? 4)%nat then None else Some "late")
  = (None, 4%nat) /\
  QueryProvider.query_fetch QueryProvider.queryClient
    (fun k => if (k <? 3)%nat then None else Some "value")
  = (Some "value", 4%nat).
Proof.
  destruct query_provider_configuration
    as (_ & Hfail & Hok & _ & _ & _ & _ & _ & _ & _ & _ & _ & Hcover & _).
  assert (Hord : QueryProvider.ordered_from 0
                   (fst <$> [(10000%Z, "a"); (10100%Z, "b")]))
    by (cbn; lia).
  split; [exact Hord|]. split.
  - apply (Hcover string 0%Z _ Hord 10100%Z "b").
    apply elem_of_cons. right. apply elem_of_cons. now left.
  - split.
    + apply Hfail. intros k Hk.
      destruct (Nat.ltb_spec k 4); [reflexivity | lia].
    + apply (Hok string _ 3%nat "value"); [lia | | reflexivity].
      intros j Hj. destruct (Nat.ltb_spec j 3); [reflexivity | lia].
Defined.
